(** * Face-recognition attendance server: matcher, record store, handlers

    A shallow embedding of [server/index.js] (Express routes
    [/api/register], [/api/attendance], [/api/faces]) together with the
    properties of its identity-matching and record-store logic.

    Modelling choices:
    - a JavaScript Number is an IEEE-754 binary64 value, represented by
      [spec_float] with precision 53 and maximal exponent 1024;
    - a JavaScript string is a [string] whose characters are the code
      units U+0000..U+00FF (Latin-1), on which [toLowerCase] and [trim]
      are defined exactly as ECMAScript does;
    - the two JSON files under [data/] are represented by the documents
      they hold (what [JSON.parse] of their text returns); a file may be
      absent or unparsable;
    - the face detector (face-api.js on a decoded image) and the clock
      are parameters of the handlers;
    - [fs.writeFileSync] is taken to return: a write that throws (disk
      full, no permission), which the enclosing [catch] would answer
      with status 500, is not part of the model, so what is said of a
      written file is said of a write that has completed;
    - console output is not part of the model. *)

From Stdlib Require Import ZArith Lia Bool Ascii String.
From Stdlib Require Import Floats.SpecFloat.
From stdpp Require Import base list strings.

(** ** JavaScript numbers *)

Module Num.
Local Open Scope Z_scope.

Definition number := spec_float.

Definition prec : Z := 53.
Definition emax : Z := 1024.

Definition NaN : number := S754_nan.
Definition Infinity : number := S754_infinity false.
Definition zero : number := S754_zero false.

Definition add : number -> number -> number := SFadd prec emax.
Definition sub : number -> number -> number := SFsub prec emax.
Definition mul : number -> number -> number := SFmul prec emax.
Definition lt : number -> number -> bool := SFltb.
Definition le : number -> number -> bool := SFleb.

(** An integer literal, and the conversion of an array length. *)
Definition of_Z (z : Z) : number := binary_normalize prec emax z 0 false.
Definition of_nat (n : nat) : number := of_Z (Z.of_nat n).

(** The literal [0.6]: the binary64 value nearest to 6/10. *)
Definition lit_0_6 : number := S754_finite false 5404319552844595 (-53).

(** [Math.sqrt]. *)
Definition Math_sqrt : number -> number := SFsqrt prec emax.

(** [Math.pow(x, 2)], taken as the correctly rounded square of [x]. *)
Definition Math_pow_2 (x : number) : number := mul x x.

(** [Math.round]: the nearest integer, ties towards +Infinity; the sign
    of a zero result is the sign of the argument. *)
Definition Math_round (x : number) : number :=
  match x with
  | S754_finite s m e =>
      if 0 <=? e then x
      else
        let n := Z.shiftr (2 * cond_Zopp s (Zpos m) + Z.shiftl 1 (- e)) (1 - e) in
        if n =? 0 then S754_zero s else of_Z n
  | _ => x
  end.

(** The value stored in a [Float32Array] slot for [x], read back as a
    Number: [x] rounded to binary32. *)
Definition fround (x : number) : number :=
  match x with
  | S754_finite s m e =>
      match binary_round 24 128 s m e with
      | S754_finite s' m' e' => binary_round prec emax s' m' e'
      | y => y
      end
  | _ => x
  end.

(** Reading [a[i]] where a Number is expected: an index past the end
    gives [undefined], which arithmetic converts to [NaN]. *)
Definition elem (a : list number) (i : nat) : number :=
  match a !! i with
  | Some x => x
  | None => NaN
  end.
End Num.
Export Num.

(** ** JavaScript strings (Latin-1 code units) *)

Module Str.
Local Open Scope N_scope.

Definition lower_unit (c : ascii) : ascii :=
  let n := N_of_ascii c in
  if ((65 <=? n) && (n <=? 90)) || ((192 <=? n) && (n <=? 222) && negb (n =? 215))
  then ascii_of_N (n + 32) else c.

Fixpoint toLowerCase (s : string) : string :=
  match s with
  | EmptyString => EmptyString
  | String c r => String (lower_unit c) (toLowerCase r)
  end.

(** White space and line terminators below U+0100. *)
Definition is_space (c : ascii) : bool :=
  let n := N_of_ascii c in
  ((9 <=? n) && (n <=? 13)) || (n =? 32) || (n =? 160).

Fixpoint trimStart (s : string) : string :=
  match s with
  | EmptyString => EmptyString
  | String c r => if is_space c then trimStart r else s
  end.

Fixpoint trimEnd (s : string) : string :=
  match s with
  | EmptyString => EmptyString
  | String c r =>
      match trimEnd r with
      | EmptyString => if is_space c then EmptyString else String c EmptyString
      | r' => String c r'
      end
  end.

Definition trim (s : string) : string := trimEnd (trimStart s).

(** Truthiness of a string: every string but the empty one. *)
Definition truthy (s : string) : bool :=
  match s with
  | EmptyString => false
  | String _ _ => true
  end.

(** [\w] of a regular expression. *)
Definition is_word (c : ascii) : bool :=
  let n := N_of_ascii c in
  ((48 <=? n) && (n <=? 57)) || ((65 <=? n) && (n <=? 90))
  || (n =? 95) || ((97 <=? n) && (n <=? 122)).

Fixpoint drop_prefix (p s : string) : option string :=
  match p, s with
  | EmptyString, _ => Some s
  | String a p', String b s' => if Ascii.eqb a b then drop_prefix p' s' else None
  | String _ _, EmptyString => None
  end.

Fixpoint skip_word (s : string) : string :=
  match s with
  | String c r => if is_word c then skip_word r else s
  | EmptyString => s
  end.

(** [s.replace(/^data:image\/\w+;base64,/, '')]. *)
Definition stripDataUrl (s : string) : string :=
  match drop_prefix "data:image/"%string s with
  | Some (String c r) =>
      if is_word c then
        match drop_prefix ";base64,"%string (skip_word r) with
        | Some rest => rest
        | None => s
        end
      else s
  | _ => s
  end.
End Str.
Export Str.

(** ** Data model *)

Module Model.

(** An element of [faces.json]. *)
Record FaceRecord := {
name : string;
descriptor : list number;
registeredAt : string;
}.

(** An element of [attendance.json]. *)
Record AttendanceRecord := {
att_name : string;
timestamp : string;
confidence : number;
}.

(** A JSON file on disk, seen through [fs.existsSync] and [JSON.parse]. *)
Inductive file (A : Type) :=
| Absent
| Unparsable (err : string)
| Document (doc : A).
Arguments Absent {A}.
Arguments Unparsable {A} err.
Arguments Document {A} doc.

Record disk := {
faces_json : file (list FaceRecord);
attendance_json : file (list AttendanceRecord);
}.

(** Values sent with [res.json]. *)
#[local] Unset Elimination Schemes.
Inductive json :=
| JNull
| JBool (b : bool)
| JNum (n : number)
| JStr (s : string)
| JArr (items : list json)
| JObj (fields : list (string * json)).
#[local] Set Elimination Schemes.

Record response := {
status : Z;
body : json;
}.

(** The parsed request body: a field is [None] when it is missing. *)
Record request := {
req_name : option string;
req_image : option string;
}.
End Model.
Export Model.

(** ** Exceptions *)

Inductive outcome (A : Type) :=
  | Return (a : A)
  | Throw (message : string).
Arguments Return {A} a.
Arguments Throw {A} message.

#[global] Instance outcome_ret : MRet outcome := fun A a => Return a.
#[global] Instance outcome_bind : MBind outcome := fun A B k m =>
  match m with
  | Return a => k a
  | Throw e => Throw e
  end.

(** [try { ... } catch (error) { handler }] around a route body that
    yields a response and the new disk contents. *)
Definition try_catch (d : disk) (handler : string -> response)
    (m : outcome (response * disk)) : response * disk :=
  match m with
  | Return r => r
  | Throw e => (handler e, d)
  end.

(** [!x] for a request field. *)
Definition missing (x : option string) : bool :=
  match x with
  | Some s => negb (truthy s)
  | None => true
  end.

(** [Array.prototype.findIndex]; [None] stands for [-1]. *)
Fixpoint findIndex {A : Type} (p : A -> bool) (l : list A) : option nat :=
  match l with
  | [] => None
  | x :: r => if p x then Some 0 else S <$> findIndex p r
  end.

(** ** Record store *)

Definition loadFaces (d : disk) : outcome (list FaceRecord) :=
  match faces_json d with
  | Absent => Return []
  | Unparsable e => Throw e
  | Document faces => Return faces
  end.

(** [saveFaces] once [fs.writeFileSync] has returned: [faces.json]
    holds the given records. Descriptor components are taken to be
    numbers that [JSON.stringify] writes and [JSON.parse] reads back
    unchanged, as the finite values of an extractor are; NaN and the
    infinities would be written as [null], and -0 as 0. *)
Definition saveFaces (faces : list FaceRecord) (d : disk) : disk :=
  {| faces_json := Document faces; attendance_json := attendance_json d |}.

(** ** Distance *)

Definition euclideanDistance (desc1 desc2 : list number) : number :=
  let sum :=
    fold_left
      (fun sum i => add sum (Math_pow_2 (sub (elem desc1 i) (elem desc2 i))))
      (seq 0 (length desc1)) zero in
  Math_sqrt sum.

(** [new Float32Array(a)] for an array of Numbers. *)
Definition Float32Array (a : list number) : list number := fround <$> a.

Definition THRESHOLD : number := lit_0_6.

(** One iteration of [for (const face of faces)] on the pair
    [(bestMatch, bestDistance)]. *)
Definition scan_step (probe : list number)
    (best : option FaceRecord * number) (face : FaceRecord)
    : option FaceRecord * number :=
  let distance := euclideanDistance probe (Float32Array (descriptor face)) in
  if lt distance (snd best) then (Some face, distance) else best.

Definition bestOf (probe : list number) (faces : list FaceRecord)
    : option FaceRecord * number :=
  fold_left (scan_step probe) faces (None, Infinity).

(** What lines 229-250 of the attendance route decide from a probe and
    the stored records: the scan, then the test
    [bestMatch && bestDistance < THRESHOLD]. When it passes, the name and
    the confidence are those put in [attendanceRecord]; when it fails,
    the best distance is the one the [else] branch prints. The constant
    [THRESHOLD] of the route is an argument here. *)
Inductive MatchResult :=
  | Matched (name : string) (confidence : number)
  | Unmatched (bestDistance : number).

Definition matcher (probe : list number) (faces : list FaceRecord)
    (threshold : number) : MatchResult :=
  let '(bestMatch, bestDistance) := bestOf probe faces in
  match bestMatch with
  | Some matched =>
      if lt bestDistance threshold
      then Matched (Model.name matched)
                   (Math_round (mul (sub (of_Z 1) bestDistance) (of_Z 100)))
      else Unmatched bestDistance
  | None => Unmatched bestDistance
  end.

(** ** Routes *)

Section Server.
Local Open Scope string_scope.

(** The decoded picture, [napiCanvas.loadImage] on the decoded base64
    payload (an error message when it rejects), and the result of
    [faceapi.detectSingleFace(img).withFaceLandmarks().withFaceDescriptor()]. *)
Variable Image : Type.
Variable loadImage : string -> string + Image.

Inductive detection :=
  | FaceFound (descriptor : list number)
  | NoFace
  | DetectorError.

Variable detectSingleFace : Image -> detection.

(** [extractFaceDescriptor]: [Some] the descriptor of the detected
    face; [None] for [undefined] (no face) and for the [null] of the
    [catch] branch. A rejected [loadImage] is thrown to the caller. *)
Definition extractFaceDescriptor (base64Image : string)
    : outcome (option (list number)) :=
  let base64Data := stripDataUrl base64Image in
  match loadImage base64Data with
  | inl e => Throw e
  | inr img =>
      match detectSingleFace img with
      | FaceFound d => Return (Some d)
      | NoFace => Return None
      | DetectorError => Return None
      end
  end.

Definition json_fail (code : Z) (message : string) : response :=
  {| status := code;
     body := JObj [("success", JBool false); ("message", JStr message)] |}.

Definition json_error (message error : string) : response :=
  {| status := 500;
     body := JObj [("success", JBool false); ("message", JStr message);
                   ("error", JStr error)] |}.

Definition json_ok (fields : list (string * json)) : response :=
  {| status := 200; body := JObj fields |}.

(** The replies of the two POST routes that carry no data. *)
Definition name_and_image_required : response :=
  json_fail 400 "Name and image are required".
Definition image_required : response :=
  json_fail 400 "Image is required".
Definition no_face_detected_register : response :=
  json_fail 400 "No face detected in the image. Please try again with a clear face photo.".
Definition no_face_detected_attendance : response :=
  json_fail 400 "No face detected in the image. Please try again.".
Definition no_registered_faces : response :=
  json_fail 404 "No faces registered yet. Please register first.".

(** [POST /api/register] *)
Definition post_register (now : string) (req : request) (d : disk)
    : response * disk :=
  match req_name req, req_image req with
  | Some name, Some image =>
      if negb (truthy name) || negb (truthy image)
      then (name_and_image_required, d)
      else
        try_catch d (json_error "Server error during registration")
          (detection ← extractFaceDescriptor image;
           match detection with
           | None =>
               mret (no_face_detected_register, d)
           | Some detected =>
               faces ← loadFaces d;
               let existingIndex :=
                 findIndex (fun f => String.eqb (toLowerCase (Model.name f)) (toLowerCase name)) faces in
               let faceRecord :=
                 {| name := trim name; descriptor := detected; registeredAt := now |} in
               let faces :=
                 match existingIndex with
                 | Some i => <[i := faceRecord]> faces
                 | None => (faces ++ [faceRecord])%list
                 end in
               mret (json_ok [("success", JBool true);
                              ("message", JStr ("Face registered successfully for " ++ name));
                              ("totalRegistered", JNum (of_nat (length faces)))],
                     saveFaces faces d)
           end)
  | _, _ => (name_and_image_required, d)
  end.

(** The log file [data/attendance.json], read inside the route. *)
Definition loadAttendance (d : disk) : outcome (list AttendanceRecord) :=
  match attendance_json d with
  | Absent => Return []
  | Unparsable e => Throw e
  | Document attendanceLog => Return attendanceLog
  end.

(** The log file once [fs.writeFileSync] has returned. *)
Definition saveAttendance (attendanceLog : list AttendanceRecord) (d : disk) : disk :=
  {| faces_json := faces_json d; attendance_json := Document attendanceLog |}.

Definition not_recognized : response :=
  json_ok [("success", JBool true); ("matched", JBool false);
           ("message", JStr "Face not recognized. Please register first.")].

(** [POST /api/attendance] *)
Definition post_attendance (now : string) (req : request) (d : disk)
    : response * disk :=
  match req_image req with
  | Some image =>
      if negb (truthy image)
      then (image_required, d)
      else
        try_catch d (json_error "Server error during attendance check")
          (detection ← extractFaceDescriptor image;
           match detection with
           | None =>
               mret (no_face_detected_attendance, d)
           | Some probe =>
               faces ← loadFaces d;
               if Nat.eqb (length faces) 0
               then mret (no_registered_faces, d)
               else
                 let '(bestMatch, bestDistance) := bestOf probe faces in
                 match bestMatch with
                 | Some matched =>
                     if lt bestDistance THRESHOLD then
                       let attendanceRecord :=
                         {| att_name := Model.name matched;
                            timestamp := now;
                            confidence :=
                              Math_round (mul (sub (of_Z 1) bestDistance) (of_Z 100)) |} in
                       attendanceLog ← loadAttendance d;
                       mret (json_ok [("success", JBool true);
                                      ("matched", JBool true);
                                      ("name", JStr (Model.name matched));
                                      ("confidence", JNum (confidence attendanceRecord));
                                      ("timestamp", JStr (timestamp attendanceRecord));
                                      ("message", JStr ("Attendance marked for " ++ Model.name matched))],
                             saveAttendance (attendanceLog ++ [attendanceRecord])%list d)
                     else mret (not_recognized, d)
                 | None => mret (not_recognized, d)
                 end
           end)
  | None => (image_required, d)
  end.

(** [GET /api/faces]; the route has no [try], an exception of
    [loadFaces] reaches the framework. *)
Definition get_faces (d : disk) : outcome response :=
  faces ← loadFaces d;
  mret (json_ok [("success", JBool true);
                 ("count", JNum (of_nat (length faces)));
                 ("faces",
                  JArr ((fun f => JObj [("name", JStr (Model.name f));
                                        ("registeredAt", JStr (registeredAt f))])
                        <$> faces))]).
End Server.

(** ** A concrete detector for worked examples *)

Module Studio.
Local Open Scope string_scope.

(** Pictures are named; every picture loads. *)
Definition load (picture : string) : string + string := inr picture.

Definition tenth : number := SFdiv prec emax (of_Z 1) (of_Z 10).

Definition detect (picture : string) : detection :=
  if String.eqb picture "empty-room" then NoFace
  else if String.eqb picture "near-origin" then FaceFound [of_Z 0; tenth]
  else if String.eqb picture "centre" then FaceFound [of_Z 5; of_Z 5]
  else if String.eqb picture "origin-1d" then FaceFound [of_Z 0]
  else FaceFound [of_Z 0; of_Z 0].

Definition register := post_register string load detect.
Definition attendance := post_attendance string load detect.

Definition no_files : disk := {| faces_json := Absent; attendance_json := Absent |}.

Definition A : FaceRecord :=
  {| name := "A"; descriptor := [of_Z 0; of_Z 0]; registeredAt := "2024-01-01T00:00:00.000Z" |}.
Definition B : FaceRecord :=
  {| name := "B"; descriptor := [of_Z 10; of_Z 10]; registeredAt := "2024-01-01T00:00:00.000Z" |}.

Definition two_faces : disk :=
  {| faces_json := Document [A; B]; attendance_json := Absent |}.

Definition with_image (picture : string) : request :=
  {| req_name := None; req_image := Some picture |}.
Definition with_name (who picture : string) : request :=
  {| req_name := Some who; req_image := Some picture |}.
End Studio.

(** ** Specification vocabulary *)

(** Two names are the same up to case. *)
Definition same_name (a b : string) : Prop := toLowerCase a = toLowerCase b.

(** At most one record per case-insensitive name. *)
Definition unique_names (faces : list FaceRecord) : Prop :=
  NoDup ((fun f => toLowerCase (name f)) <$> faces).

(** A run of [POST /api/register] calls, each with its clock reading. *)
Definition register_all (Image : Type) (loadImage : string -> string + Image)
    (detectSingleFace : Image -> detection)
    (calls : list (string * request)) (d : disk) : disk :=
  fold_left
    (fun d call => snd (post_register Image loadImage detectSingleFace (fst call) (snd call) d))
    calls d.

(** The distance the attendance route computes for a stored record. *)
Definition distance_to (probe : list number) (face : FaceRecord) : number :=
  euclideanDistance probe (Float32Array (descriptor face)).

(** The confidence the attendance route derives from a distance. *)
Definition confidence_of (distance : number) : number :=
  Math_round (mul (sub (of_Z 1) distance) (of_Z 100)).

(** The reply of a successful match. *)
Definition recognized (who : string) (conf : number) (now : string) : response :=
  json_ok [("success", JBool true); ("matched", JBool true);
           ("name", JStr who); ("confidence", JNum conf);
           ("timestamp", JStr now);
           ("message", JStr ("Attendance marked for " ++ who))].

(** What the loop of the attendance route has established once it has
    gone through [faces]: no record is nearer than the best distance, and
    the best match, when there is one, is the first record at that
    distance. *)
Definition scanned (probe : list number) (faces : list FaceRecord)
    (best : option FaceRecord * number) : Prop :=
  (forall f, f ∈ faces -> lt (distance_to probe f) (snd best) = false)
  /\ match fst best with
     | None => snd best = Infinity
     | Some b =>
         snd best = distance_to probe b
         /\ lt (distance_to probe b) Infinity = true
         /\ exists k, faces !! k = Some b
              /\ forall j f, j < k -> faces !! j = Some f ->
                   lt (distance_to probe b) (distance_to probe f) = true
                   \/ distance_to probe f = NaN
     end.

(** ** The remaining routes *)

Section ReadOnlyRoutes.
Local Open Scope string_scope.

Variable Image : Type.
Variable loadImage : string -> string + Image.
Variable detectSingleFace : Image -> detection.

(** [GET /api/health] *)
Definition get_health : response :=
  json_ok [("status", JStr "ok");
           ("message", JStr "Face Recognition Server is running")].

(** [POST /api/extract-descriptor]; the route reads and writes no file. *)
Definition post_extract_descriptor (req : request) : response :=
  match req_image req with
  | Some image =>
      if negb (truthy image)
      then image_required
      else
        match extractFaceDescriptor Image loadImage detectSingleFace image with
        | Throw e => json_error "Server error during face extraction" e
        | Return None => no_face_detected_register
        | Return (Some detected) =>
            let descriptor := detected in
            json_ok [("success", JBool true);
                     ("descriptor", JArr (JNum <$> descriptor));
                     ("message", JStr "Face descriptor extracted successfully")]
        end
  | None => image_required
  end.

(** An attendance record as it is sent back. *)
Definition attendance_json_of (r : AttendanceRecord) : json :=
  JObj [("name", JStr (att_name r));
        ("timestamp", JStr (timestamp r));
        ("confidence", JNum (confidence r))].

(** [GET /api/attendance]; like [GET /api/faces] it has no [try]. *)
Definition get_attendance (d : disk) : outcome response :=
  attendanceLog ← loadAttendance d;
  mret (json_ok [("success", JBool true);
                 ("count", JNum (of_nat (length attendanceLog)));
                 ("records", JArr (attendance_json_of <$> attendanceLog))]).
End ReadOnlyRoutes.

(** A descriptor component as [face-api.js] delivers it: a finite
    number that a [Float32Array] slot holds exactly. *)
Definition float32_value (x : number) : Prop :=
  fround x = x
  /\ match x with
     | S754_zero _ | S754_finite _ _ _ => True
     | _ => False
     end.

(** The names the store lists, in order. *)
Definition listed_names (faces : list FaceRecord) : list string :=
  name <$> faces.

(** The record list after lines 161-177 of the registration route:
    the record replaces the first one that bears the name up to case,
    or is pushed at the end. *)
Definition upsert (nm : string) (faceRecord : FaceRecord) (faces : list FaceRecord)
    : list FaceRecord :=
  match findIndex (fun f => String.eqb (toLowerCase (name f)) (toLowerCase nm)) faces with
  | Some i => <[i := faceRecord]> faces
  | None => faces ++ [faceRecord]
  end.

(** The reply of a successful registration. *)
Definition registered_reply (nm : string) (total : nat) : response :=
  json_ok [("success", JBool true);
           ("message", JStr ("Face registered successfully for " ++ nm));
           ("totalRegistered", JNum (of_nat total))].

(** Every character of a string passes a test. *)
Fixpoint all_chars (p : ascii -> bool) (s : string) : bool :=
  match s with
  | EmptyString => true
  | String c r => p c && all_chars p r
  end.

(** * Properties *)

(** ** The order on numbers *)

Section NumberOrder.
Ltac order_cases :=
  repeat match goal with
  | |- context [Z.compare ?a ?b] => destruct (Z.compare_spec a b)
  | H : context [Z.compare ?a ?b] |- _ => destruct (Z.compare_spec a b)
  | |- context [Pos.compare ?a ?b] => destruct (Pos.compare_spec a b)
  | H : context [Pos.compare ?a ?b] |- _ => destruct (Pos.compare_spec a b)
  end.

Lemma lt_irrefl (a : number) : lt a a = false.
Proof.
  unfold lt, SFltb, SFcompare.
  destruct a as [[]|[]| |[] ma ea]; try reflexivity;
    change (Pos.compare_cont Eq) with Pos.compare;
    rewrite Z.compare_refl, Pos.compare_refl; reflexivity.
Qed.

Lemma lt_trans (a b c : number) :
  lt a b = true -> lt b c = true -> lt a c = true.
Proof.
  unfold lt, SFltb, SFcompare.
  destruct a as [[]|[]| |[] ma ea], b as [[]|[]| |[] mb eb], c as [[]|[]| |[] mc ec];
    try (intros; congruence);
    change (Pos.compare_cont Eq) with Pos.compare;
    intros Hab Hbc; order_cases; cbn in *; try congruence; try lia.
Qed.

(** Below [b], hence below whatever is comparable and not below [b]. *)
Lemma lt_of_not_lt (a b c : number) :
  lt a b = true -> lt c b = false -> c <> NaN -> lt a c = true.
Proof.
  unfold lt, SFltb, SFcompare, NaN.
  destruct a as [[]|[]| |[] ma ea], b as [[]|[]| |[] mb eb], c as [[]|[]| |[] mc ec];
    try (intros; congruence);
    change (Pos.compare_cont Eq) with Pos.compare;
    intros Hab Hbc Hc; order_cases; cbn in *; try congruence; try lia.
Qed.

Lemma lt_NaN_l (a : number) : lt NaN a = false.
Proof. reflexivity. Qed.
End NumberOrder.

(** ** Rounding in binary64 *)

Section Rounding.
Local Open Scope Z_scope.

(** The number of bits of a positive integer. *)
Lemma digits2_pos_bounds (p : positive) :
  2 ^ (Zpos (digits2_pos p) - 1) <= Zpos p < 2 ^ Zpos (digits2_pos p).
Proof.
  induction p as [p IH|p IH|]; cbn [digits2_pos].
  - rewrite Pos2Z.inj_succ.
    replace (Z.succ (Zpos (digits2_pos p)) - 1) with (Z.succ (Zpos (digits2_pos p) - 1)) by lia.
    rewrite !Z.pow_succ_r by lia. lia.
  - rewrite Pos2Z.inj_succ.
    replace (Z.succ (Zpos (digits2_pos p)) - 1) with (Z.succ (Zpos (digits2_pos p) - 1)) by lia.
    rewrite !Z.pow_succ_r by lia. lia.
  - cbn. lia.
Qed.

Lemma digits2_pos_unique (p : positive) (k : Z) :
  2 ^ (k - 1) <= Zpos p < 2 ^ k -> Zpos (digits2_pos p) = k.
Proof.
  intros [Hlo Hhi]. pose proof (digits2_pos_bounds p) as [Dlo Dhi].
  assert (0 < k).
  { destruct (Z.lt_trichotomy k 0) as [Hk|[->|Hk]]; [|cbn in Hhi; lia|assumption].
    rewrite Z.pow_neg_r in Hhi by assumption. lia. }
  destruct (Z.lt_trichotomy (Zpos (digits2_pos p)) k) as [Hlt|[Heq|Hgt]]; [|assumption|].
  - assert (2 ^ Zpos (digits2_pos p) <= 2 ^ (k - 1)) by (apply Z.pow_le_mono_r; lia). lia.
  - assert (2 ^ k <= 2 ^ (Zpos (digits2_pos p) - 1)) by (apply Z.pow_le_mono_r; lia). lia.
Qed.

(** Shifting a mantissa right divides it by a power of two. *)
Lemma shr_1_m (mrs : shr_record) :
  0 <= shr_m mrs -> shr_m (shr_1 mrs) = shr_m mrs / 2.
Proof.
  destruct mrs as [m r s]. cbn [shr_m shr_1]. intros Hm.
  destruct m as [|[p|p|]|p]; cbn [shr_m]; [reflexivity| | |reflexivity|lia].
  - apply Z.div_unique with 1; lia.
  - apply Z.div_unique with 0; lia.
Qed.

Lemma shr_iter_m (n : positive) (mrs : shr_record) :
  0 <= shr_m mrs ->
  shr_m (SpecFloat.iter_pos shr_1 n mrs) = shr_m mrs / 2 ^ Zpos n
  /\ 0 <= shr_m (SpecFloat.iter_pos shr_1 n mrs).
Proof.
  revert mrs. induction n as [n IH|n IH|]; intros mrs Hm; cbn [SpecFloat.iter_pos].
  - assert (H1 : 0 <= shr_m (shr_1 mrs)).
    { rewrite shr_1_m by assumption. apply Z.div_pos; lia. }
    destruct (IH _ H1) as [E2 H2]. destruct (IH _ H2) as [E3 H3].
    split; [|assumption].
    rewrite E3, E2, shr_1_m by assumption.
    rewrite !Z.div_div by lia. f_equal.
    replace (Zpos n~1) with (1 + Zpos n + Zpos n) by lia.
    rewrite !Z.pow_add_r by lia. change (2 ^ 1) with 2. ring.
  - destruct (IH _ Hm) as [E2 H2]. destruct (IH _ H2) as [E3 H3].
    split; [|assumption].
    rewrite E3, E2. rewrite !Z.div_div by lia. f_equal.
    replace (Zpos n~0) with (Zpos n + Zpos n) by lia.
    rewrite !Z.pow_add_r by lia. ring.
  - rewrite shr_1_m by assumption. split; [reflexivity|]. apply Z.div_pos; lia.
Qed.

Lemma shr_shift (mrs : shr_record) (e n : Z) :
  0 <= shr_m mrs -> 0 <= n ->
  exists mrs', shr mrs e n = (mrs', e + n) /\ shr_m mrs' = shr_m mrs / 2 ^ n.
Proof.
  intros Hm Hn. destruct n as [|n|n]; [| |lia].
  - exists mrs. cbn. rewrite Z.add_0_r, Z.div_1_r. auto.
  - exists (SpecFloat.iter_pos shr_1 n mrs). split; [reflexivity|].
    apply shr_iter_m. assumption.
Qed.

Lemma shr_noshift (mrs : shr_record) (e n : Z) :
  n <= 0 -> shr mrs e n = (mrs, e).
Proof. intros Hn. destruct n; [reflexivity|lia|reflexivity]. Qed.

Lemma shr_record_of_loc_m (m : Z) (l : location) : shr_m (shr_record_of_loc m l) = m.
Proof. destruct l as [|[]]; reflexivity. Qed.

Lemma shr_fexp_spec (m e : Z) (l : location) :
  0 <= m ->
  let n := Z.max (fexp prec emax (Zdigits2 m + e) - e) 0 in
  exists mrs', shr_fexp prec emax m e l = (mrs', e + n) /\ shr_m mrs' = m / 2 ^ n.
Proof.
  intros Hm n. unfold shr_fexp.
  destruct (Z.le_gt_cases (fexp prec emax (Zdigits2 m + e) - e) 0) as [Hle|Hgt].
  - rewrite shr_noshift by assumption.
    exists (shr_record_of_loc m l). subst n. rewrite Z.max_r by assumption.
    rewrite Z.add_0_r, Z.div_1_r, shr_record_of_loc_m. auto.
  - subst n. rewrite Z.max_l by lia.
    destruct (shr_shift (shr_record_of_loc m l) e (fexp prec emax (Zdigits2 m + e) - e))
      as (mrs' & E & Em); [rewrite shr_record_of_loc_m; assumption | lia |].
    exists mrs'. rewrite shr_record_of_loc_m in Em. auto.
Qed.

Lemma round_nearest_even_bounds (m : Z) (l : location) :
  m <= round_nearest_even m l <= m + 1.
Proof. destruct l as [|[]]; cbn; try destruct (Z.even m); lia. Qed.

Lemma fexp_eq (x : Z) : fexp prec emax x = Z.max (x - 53) (-1074).
Proof. reflexivity. Qed.

(** Rounding a mantissa of [53 + n] bits in the normal range keeps 53
    bits: the quotient by [2 ^ n] or its successor, renormalised when
    the successor reaches [2 ^ 53]. *)
Lemma round_aux_normal (mx : positive) (ex : Z) (lx : location) (n : Z) :
  n = Zpos (digits2_pos mx) - 53 -> 0 <= n ->
  -1074 <= ex + n -> ex + n + 1 <= 971 ->
  exists m e,
    binary_round_aux prec emax false (Zpos mx) ex lx = S754_finite false m e
    /\ ((e = ex + n /\ 2 ^ 52 <= Zpos m < 2 ^ 53
         /\ Zpos mx / 2 ^ n <= Zpos m <= Zpos mx / 2 ^ n + 1)
        \/ (e = ex + n + 1 /\ Zpos m = 2 ^ 52 /\ Zpos mx / 2 ^ n + 1 = 2 ^ 53)).
Proof.
  intros Hn Hn0 Hlo Hhi.
  pose proof (digits2_pos_bounds mx) as [Dlo Dhi].
  unfold binary_round_aux.
  destruct (shr_fexp_spec (Zpos mx) ex lx) as (mrs' & -> & Em'); [lia|].
  cbn [Zdigits2] in *. rewrite fexp_eq in *.
  replace (Z.max (Z.max (Zpos (digits2_pos mx) + ex - 53) (-1074) - ex) 0) with n in * by lia.
  assert (Hm' : 2 ^ 52 <= shr_m mrs' < 2 ^ 53).
  { rewrite Em'. replace (Zpos (digits2_pos mx)) with (53 + n) in * by lia.
    replace (53 + n - 1) with (52 + n) in Dlo by lia.
    rewrite Z.pow_add_r in Dlo, Dhi by lia. split.
    - apply Z.div_le_lower_bound; lia.
    - apply Z.div_lt_upper_bound; lia. }
  pose proof (round_nearest_even_bounds (shr_m mrs') (loc_of_shr_record mrs')) as Hr.
  set (m1 := round_nearest_even (shr_m mrs') (loc_of_shr_record mrs')) in *.
  destruct (shr_fexp_spec m1 (ex + n) loc_Exact) as (mrs'' & -> & Em''); [lia|].
  destruct m1 as [|q|q] eqn:Hm1; [lia| |lia].
  cbn [Zdigits2] in *. rewrite fexp_eq in *.
  destruct (Z.lt_ge_cases (Zpos q) (2 ^ 53)) as [Hlt|Hge].
  - assert (Hd : Zpos (digits2_pos q) = 53) by (apply digits2_pos_unique; lia).
    rewrite Hd in *.
    replace (Z.max (Z.max (53 + (ex + n) - 53) (-1074) - (ex + n)) 0) with 0 in * by lia.
    rewrite Z.div_1_r in Em''. rewrite Em''. rewrite Z.add_0_r.
    replace (ex + n <=? emax - prec) with true by (symmetry; apply Z.leb_le; unfold emax, prec; lia).
    exists q, (ex + n). split; [reflexivity|]. left. rewrite <- Em'. lia.
  - assert (Hq : Zpos q = 2 ^ 53) by lia.
    assert (Hd : Zpos (digits2_pos q) = 54) by (apply digits2_pos_unique; rewrite Hq; cbn; lia).
    rewrite Hd in *.
    replace (Z.max (Z.max (54 + (ex + n) - 53) (-1074) - (ex + n)) 0) with 1 in * by lia.
    rewrite Hq in Em''. change (2 ^ 53 / 2 ^ 1) with (Zpos (2 ^ 52)) in Em''.
    rewrite Em''.
    replace (ex + n + 1 <=? emax - prec) with true by (symmetry; apply Z.leb_le; unfold emax, prec; lia).
    eexists _, _. split; [reflexivity|]. right. rewrite <- Em'. 
    split; [reflexivity|]. split; [reflexivity|]. lia.
Qed.

(** Whatever is rounded, the result has at most 53 bits. *)
Lemma round_aux_fits (mz ez : Z) (lz : location) :
  0 <= mz ->
  match binary_round_aux prec emax false mz ez lz with
  | S754_finite s m e => s = false /\ Zpos m < 2 ^ 53 /\ -1074 <= e
  | S754_zero s | S754_infinity s => s = false
  | S754_nan => False
  end.
Proof.
  intros Hmz. unfold binary_round_aux.
  destruct (shr_fexp_spec mz ez lz Hmz) as (mrs' & -> & Em').
  assert (Hm' : 0 <= shr_m mrs') by (rewrite Em'; apply Z.div_pos; lia).
  pose proof (round_nearest_even_bounds (shr_m mrs') (loc_of_shr_record mrs')) as Hr.
  set (m1 := round_nearest_even (shr_m mrs') (loc_of_shr_record mrs')) in *.
  set (e1 := ez + Z.max (fexp prec emax (Zdigits2 mz + ez) - ez) 0) in *.
  destruct (shr_fexp_spec m1 e1 loc_Exact) as (mrs'' & -> & Em''); [lia|].
  set (n2 := Z.max (fexp prec emax (Zdigits2 m1 + e1) - e1) 0) in *.
  destruct (shr_m mrs'') as [|m|m] eqn:Hm''.
  - reflexivity.
  - destruct (e1 + n2 <=? emax - prec); [|reflexivity].
    split; [reflexivity|].
    destruct m1 as [|q|q]; [rewrite Zdiv_0_l in Em''; lia| |lia].
    pose proof (digits2_pos_bounds q) as [Dlo Dhi].
    cbn [Zdigits2] in *. rewrite fexp_eq in *.
    subst n2. cbn [Zdigits2] in *. rewrite fexp_eq in *.
    split; [|lia].
    rewrite Em''. apply Z.div_lt_upper_bound; [lia|].
    rewrite <- Z.pow_add_r by lia.
    eapply Z.lt_le_trans; [exact Dhi|]. apply Z.pow_le_mono_r; lia.
  - assert (0 <= m1 / 2 ^ n2) by (apply Z.div_pos; lia). lia.
Qed.

Lemma sqrt_core_nonneg (m e : Z) :
  0 <= fst (fst (SFsqrt_core_binary prec emax m e)).
Proof.
  unfold SFsqrt_core_binary.
  match goal with
  | |- context [Z.sqrtrem ?a] =>
      generalize (Z.sqrtrem_sqrt a); destruct (Z.sqrtrem a) as [q r]
  end.
  cbn [fst]. intros ->. apply Z.sqrt_nonneg.
Qed.

(** The shape of a square root: never negative. *)
Lemma Math_sqrt_shape (s : number) :
  match Math_sqrt s with
  | S754_finite b m e => b = false /\ Zpos m < 2 ^ 53 /\ -1074 <= e
  | S754_infinity b => b = false
  | _ => True
  end.
Proof.
  unfold Math_sqrt, SFsqrt.
  destruct s as [b|[]| |[] mx ex];
    [exact I | exact I | reflexivity | exact I | exact I | ].
  pose proof (sqrt_core_nonneg (Zpos mx) ex) as Hq.
  destruct (SFsqrt_core_binary prec emax (Zpos mx) ex) as [[mz ez] lz].
  cbn [fst] in Hq.
  pose proof (round_aux_fits mz ez lz Hq) as Hfit.
  destruct (binary_round_aux prec emax false mz ez lz); [exact I | exact Hfit | exact I | exact Hfit].
Qed.

Lemma lt_threshold_finite (m : positive) (e : Z) :
  lt (S754_finite false m e) THRESHOLD = true ->
  e < -53 \/ (e = -53 /\ Zpos m < 5404319552844595).
Proof.
  unfold lt, SFltb, THRESHOLD, lit_0_6, SFcompare.
  destruct (Z.compare_spec e (-53)) as [He|He|He].
  - destruct (Pos.compare_cont Eq m 5404319552844595) eqn:Hc;
      intros Hd; [discriminate Hd | | discriminate Hd].
    right. split; [exact He | exact Hc].
  - intros _. left. exact He.
  - intros Hd. discriminate Hd.
Qed.

Lemma iter_xO_pow (x k : positive) :
  Zpos (Pos.iter xO x k) = Zpos x * 2 ^ Zpos k.
Proof.
  induction k as [|k IH] using Pos.peano_ind.
  - cbn. lia.
  - rewrite Pos.iter_succ, Pos2Z.inj_xO, IH, Pos2Z.inj_succ, Z.pow_succ_r by lia. ring.
Qed.

Lemma shl_align_down (mx : positive) (ex ex' : Z) :
  ex' <= ex ->
  exists mx', shl_align mx ex ex' = (mx', ex') /\ Zpos mx' = Zpos mx * 2 ^ (ex - ex').
Proof.
  intros Hle. unfold shl_align.
  destruct (ex' - ex) as [|k|k] eqn:Hk; [|lia|].
  - exists mx. replace ex' with ex by lia. rewrite Z.sub_diag. split; [reflexivity|]. cbn. lia.
  - exists (Pos.iter xO mx k). split; [reflexivity|].
    rewrite iter_xO_pow. f_equal. f_equal. lia.
Qed.

Lemma shl_align_up (mx : positive) (ex ex' : Z) :
  ex <= ex' -> shl_align mx ex ex' = (mx, ex).
Proof.
  intros Hle. unfold shl_align.
  destruct (ex' - ex) as [|k|k] eqn:Hk; [reflexivity|reflexivity|lia].
Qed.

Lemma binary_round_normal (p : positive) (e D : Z) :
  D = Zpos (digits2_pos p) ->
  -1074 <= D + e - 53 -> D + e - 53 + 1 <= 971 ->
  exists m e',
    binary_round prec emax false p e = S754_finite false m e'
    /\ 2 ^ 52 <= Zpos m < 2 ^ 53
    /\ ((e' = D + e - 53
         /\ ((53 <= D /\ Zpos p / 2 ^ (D - 53) <= Zpos m <= Zpos p / 2 ^ (D - 53) + 1)
             \/ (D < 53 /\ Zpos p * 2 ^ (53 - D) <= Zpos m <= Zpos p * 2 ^ (53 - D) + 1)))
        \/ (e' = D + e - 53 + 1 /\ Zpos m = 2 ^ 52)).
Proof.
  intros HD Hlo Hhi.
  pose proof (digits2_pos_bounds p) as [Dlo Dhi]. rewrite <- HD in Dlo, Dhi.
  assert (HDpos : 0 < D) by (subst D; lia).
  unfold binary_round. rewrite <- HD, fexp_eq.
  replace (Z.max (D + e - 53) (-1074)) with (D + e - 53) by lia.
  destruct (Z.lt_ge_cases D 53) as [Hsmall|Hbig].
  - destruct (shl_align_down p e (D + e - 53)) as (mx' & -> & Hmx'); [lia|].
    replace (e - (D + e - 53)) with (53 - D) in Hmx' by lia.
    assert (Hd' : Zpos (digits2_pos mx') = 53).
    { apply digits2_pos_unique. rewrite Hmx'.
      replace (2 ^ (53 - 1)) with (2 ^ (D - 1) * 2 ^ (53 - D))
        by (rewrite <- Z.pow_add_r by lia; f_equal; lia).
      replace (2 ^ 53) with (2 ^ D * 2 ^ (53 - D))
        by (rewrite <- Z.pow_add_r by lia; f_equal; lia).
      assert (0 < 2 ^ (53 - D)) by (apply Z.pow_pos_nonneg; lia).
      split; [apply Z.mul_le_mono_nonneg_r; lia | apply Z.mul_lt_mono_pos_r; lia]. }
    destruct (round_aux_normal mx' (D + e - 53) loc_Exact 0) as (m & e' & -> & Hcase);
      [lia | lia | lia | lia |].
    exists m, e'. split; [reflexivity|].
    rewrite Z.div_1_r, Hmx' in Hcase.
    destruct Hcase as [(-> & Hm & Hval)|(-> & Hm & _)].
    + split; [exact Hm|]. left. split; [lia|]. right. split; [exact Hsmall | exact Hval].
    + split; [rewrite Hm; cbn; lia|]. right. split; [lia | exact Hm].
  - rewrite shl_align_up by lia.
    destruct (round_aux_normal p e loc_Exact (D - 53)) as (m & e' & -> & Hcase);
      [lia | lia | lia | lia |].
    exists m, e'. split; [reflexivity|].
    destruct Hcase as [(-> & Hm & Hval)|(-> & Hm & _)].
    + split; [exact Hm|]. left. split; [lia|]. left. split; [lia | exact Hval].
    + split; [rewrite Hm; cbn; lia|]. right. split; [lia | exact Hm].
Qed.

Lemma of_Z_1 : of_Z 1 = S754_finite false 4503599627370496 (-52).
Proof. vm_compute. reflexivity. Qed.

Lemma of_Z_100 : of_Z 100 = S754_finite false 7036874417766400 (-46).
Proof. vm_compute. reflexivity. Qed.

(** [1 - d] for a positive [d] below 0.6: a normal number between
    0.4 and 1. *)
Lemma sub_one_below_threshold (m : positive) (e : Z) :
  Zpos m < 2 ^ 53 ->
  e < -53 \/ (e = -53 /\ Zpos m < 5404319552844595) ->
  exists mr er,
    sub (of_Z 1) (S754_finite false m e) = S754_finite false mr er
    /\ 2 ^ 52 <= Zpos mr < 2 ^ 53
    /\ ((er = -54 /\ 7205759403792796 <= Zpos mr)
        \/ er = -53
        \/ (er = -52 /\ Zpos mr = 2 ^ 52)).
Proof.
  intros Hm He. rewrite of_Z_1. unfold sub, SFsub.
  assert (He53 : e <= -53) by lia.
  rewrite Z.min_r by lia.
  destruct (shl_align_down 4503599627370496 (-52) e) as (a & -> & Ha); [lia|].
  rewrite (shl_align_up m e e) by lia. cbn [fst cond_Zopp].
  change (Zpos 4503599627370496) with (2 ^ 52) in Ha.
  rewrite <- Z.pow_add_r in Ha by lia.
  replace (52 + (-52 - e)) with (- e) in Ha by lia.
  assert (Hpow : 2 ^ 53 <= 2 ^ (- e)) by (apply Z.pow_le_mono_r; lia).
  destruct (Zpos a - Zpos m) as [|p|p] eqn:Hp; [lia| |lia].
  cbn [binary_normalize].
  destruct He as [He|[He Hm06]].
  - (* d below 1/2: the difference has [- e] bits *)
    assert (Hpow' : 2 ^ 53 <= 2 ^ (- e - 1)) by (apply Z.pow_le_mono_r; lia).
    assert (Hdouble : 2 ^ (- e) = 2 * 2 ^ (- e - 1)).
    { rewrite <- Z.pow_succ_r by lia. f_equal. lia. }
    assert (HD : Zpos (digits2_pos p) = - e) by (apply digits2_pos_unique; lia).
    destruct (binary_round_normal p e (- e)) as (mr & er & -> & Hmr & Hcase);
      [lia | lia | lia |].
    exists mr, er. split; [reflexivity|]. split; [exact Hmr|].
    destruct Hcase as [[-> _]|[-> Hc]]; [right; left; lia | right; right; split; [lia | exact Hc]].
  - subst e. change (2 ^ (- -53)) with 9007199254740992 in *.
    change (2 ^ 53) with 9007199254740992 in *.
    destruct (Z.lt_ge_cases (Zpos p) (2 ^ 52)) as [Hsmall|Hbig].
    + assert (HD : Zpos (digits2_pos p) = 52).
      { apply digits2_pos_unique. change (2 ^ (52 - 1)) with 2251799813685248.
        change (2 ^ 52) with 4503599627370496 in *. lia. }
      destruct (binary_round_normal p (-53) 52) as (mr & er & -> & Hmr & Hcase);
        [lia | lia | lia |].
      exists mr, er. split; [reflexivity|]. split; [exact Hmr|].
      destruct Hcase as [[-> [[Hc _]|[_ Hc]]]|[-> Hc]]; [lia| |right; left; lia].
      left. split; [lia|]. change (2 ^ (53 - 52)) with 2 in Hc. lia.
    + assert (HD : Zpos (digits2_pos p) = 53).
      { apply digits2_pos_unique. change (2 ^ (53 - 1)) with (2 ^ 52).
        change (2 ^ 53) with 9007199254740992. lia. }
      destruct (binary_round_normal p (-53) 53) as (mr & er & -> & Hmr & Hcase);
        [lia | lia | lia |].
      exists mr, er. split; [reflexivity|]. split; [exact Hmr|].
      destruct Hcase as [[-> _]|[-> Hc]]; [right; left; lia | right; right; split; [lia | exact Hc]].
Qed.

Lemma Math_round_finite_pos (my : positive) (ey z : Z) :
  ey < 0 ->
  z = (2 * Zpos my + 2 ^ (- ey)) / 2 ^ (1 - ey) ->
  z <> 0 ->
  Math_round (S754_finite false my ey) = of_Z z.
Proof.
  intros Hey Hz Hz0. unfold Math_round.
  replace (0 <=? ey) with false by (symmetry; apply Z.leb_gt; exact Hey).
  cbn [cond_Zopp].
  rewrite Z.shiftl_1_l, Z.shiftr_div_pow2 by lia.
  rewrite <- Hz.
  replace (z =? 0) with false by (symmetry; apply Z.eqb_neq; exact Hz0).
  reflexivity.
Qed.

Lemma Math_round_percent (my : positive) (ey : Z) :
  ey < 0 ->
  40 * 2 ^ (1 - ey) <= 2 * Zpos my + 2 ^ (- ey) < 101 * 2 ^ (1 - ey) ->
  exists z, Math_round (S754_finite false my ey) = of_Z z /\ 40 <= z <= 100.
Proof.
  intros Hey [Hlo Hhi].
  assert (Hpos : 0 < 2 ^ (1 - ey)) by (apply Z.pow_pos_nonneg; lia).
  assert (Hz : 40 <= (2 * Zpos my + 2 ^ (- ey)) / 2 ^ (1 - ey) <= 100).
  { split.
    - apply Z.div_le_lower_bound; lia.
    - apply Z.lt_succ_r. apply Z.div_lt_upper_bound; lia. }
  eexists. split; [|exact Hz].
  apply Math_round_finite_pos; [exact Hey | reflexivity | lia].
Qed.

Ltac flatten_div H c :=
  match type of H with
  | context [?a / c] =>
      let Hq := fresh "Hq" in
      let Hr := fresh "Hr" in
      pose proof (Z_div_mod_eq_full a c) as Hq;
      pose proof (Z.mod_pos_bound a c eq_refl) as Hr;
      generalize dependent (a / c); generalize dependent (a mod c); intros
  end.

Ltac compute_pows :=
  repeat match goal with
  | |- context [2 ^ ?k] =>
      let v := eval vm_compute in (2 ^ k) in change (2 ^ k) with v
  end.

(** The product by 100 and its rounding to an integer, for a factor
    between 0.4 and 1. *)
Lemma round_times_100 (mr : positive) (er : Z) :
  2 ^ 52 <= Zpos mr < 2 ^ 53 ->
  (er = -54 /\ 7205759403792796 <= Zpos mr)
  \/ er = -53
  \/ (er = -52 /\ Zpos mr = 2 ^ 52) ->
  exists z, Math_round (mul (S754_finite false mr er) (of_Z 100)) = of_Z z
            /\ 40 <= z <= 100.
Proof.
  intros Hmr Hcase. rewrite of_Z_100. unfold mul, SFmul. cbn [xorb].
  change (2 ^ 52) with 4503599627370496 in *.
  change (2 ^ 53) with 9007199254740992 in *.
  set (P := (mr * 7036874417766400)%positive).
  assert (HP : Zpos P = Zpos mr * 7036874417766400) by (subst P; apply Pos2Z.inj_mul).
  clearbody P.
  destruct (Z.lt_ge_cases (Zpos P) (2 ^ 105)) as [Hsmall|Hbig].
  - assert (HD : Zpos (digits2_pos P) = 105).
    { apply digits2_pos_unique.
      change (2 ^ (105 - 1)) with 20282409603651670423947251286016.
      change (2 ^ 105) with 40564819207303340847894502572032 in *. lia. }
    change (2 ^ 105) with 40564819207303340847894502572032 in *.
    destruct (round_aux_normal P (er + -46) loc_Exact 52) as (my & ey & -> & Hy);
      [lia | lia | lia | lia |].
    change (2 ^ 52) with 4503599627370496 in *.
    change (2 ^ 53) with 9007199254740992 in *.
    destruct Hcase as [[-> Hlow]|[->|[-> Hone]]];
      destruct Hy as [(-> & Hmy & Hval)|(-> & Hmy & Hval)];
      flatten_div Hval 4503599627370496.
    all: try lia.
    all: apply Math_round_percent; [lia|]; compute_pows; lia.
  - assert (HD : Zpos (digits2_pos P) = 106).
    { apply digits2_pos_unique.
      change (2 ^ (106 - 1)) with (2 ^ 105).
      change (2 ^ 106) with 81129638414606681695789005144064.
      change (2 ^ 105) with 40564819207303340847894502572032 in *. lia. }
    change (2 ^ 105) with 40564819207303340847894502572032 in *.
    destruct (round_aux_normal P (er + -46) loc_Exact 53) as (my & ey & -> & Hy);
      [lia | lia | lia | lia |].
    change (2 ^ 52) with 4503599627370496 in *.
    change (2 ^ 53) with 9007199254740992 in *.
    destruct Hcase as [[-> Hlow]|[->|[-> Hone]]];
      destruct Hy as [(-> & Hmy & Hval)|(-> & Hmy & Hval)];
      flatten_div Hval 9007199254740992.
    all: try lia.
    all: apply Math_round_percent; [lia|]; compute_pows; lia.
Qed.

Lemma confidence_of_zero (b : bool) : confidence_of (S754_zero b) = of_Z 100.
Proof. destruct b; vm_compute; reflexivity. Qed.

Lemma confidence_of_sqrt (s : number) :
  lt (Math_sqrt s) THRESHOLD = true ->
  exists z, confidence_of (Math_sqrt s) = of_Z z /\ 40 <= z <= 100.
Proof.
  pose proof (Math_sqrt_shape s) as Hshape.
  destruct (Math_sqrt s) as [b|b| |b m e].
  - intros _. exists 100. split; [apply confidence_of_zero | lia].
  - subst b. intros Hd. discriminate Hd.
  - intros Hd. discriminate Hd.
  - destruct Hshape as (-> & Hm & _). intros Hlt.
    apply lt_threshold_finite in Hlt.
    destruct (sub_one_below_threshold m e Hm Hlt) as (mr & er & Hsub & Hmr & Hcase).
    unfold confidence_of. rewrite Hsub.
    apply round_times_100; assumption.
Qed.

Lemma percent_in_order (z : Z) :
  40 <= z <= 100 ->
  le (of_Z 40) (of_Z z) = true /\ le (of_Z z) (of_Z 100) = true.
Proof.
  intros Hz. destruct z as [|p|p]; [lia| |lia].
  repeat match goal with
         | q : positive |- _ => destruct q; try lia
         end.
  all: vm_compute; split; reflexivity.
Qed.

(** A percentage in that range is not below zero. *)
Lemma percent_not_negative (z : Z) :
  40 <= z <= 100 -> lt (of_Z z) zero = false.
Proof.
  intros Hz. destruct z as [|p|p]; [lia| |lia].
  repeat match goal with
         | q : positive |- _ => destruct q; try lia
         end.
  all: vm_compute; reflexivity.
Qed.
End Rounding.

(** ** The scan for the nearest record *)

Section Scan.
Variable probe : list number.

Abbreviation dist := (distance_to probe).

Lemma bestOf_snoc (faces : list FaceRecord) (face : FaceRecord) :
  bestOf probe (faces ++ [face]) = scan_step probe (bestOf probe faces) face.
Proof. unfold bestOf. rewrite fold_left_app. reflexivity. Qed.

Lemma bestOf_scanned (faces : list FaceRecord) : scanned probe faces (bestOf probe faces).
Proof.
  induction faces as [|face faces IH] using rev_ind.
  - split; [intros f Hf; inversion Hf | reflexivity].
  - rewrite bestOf_snoc. destruct (bestOf probe faces) as [bm bd].
    destruct IH as [Hmin Hbest]. cbn [fst snd] in *.
    unfold scan_step. cbn [snd]. fold (dist face).
    destruct (lt (dist face) bd) eqn:Hlt.
    + (* [face] becomes the best match *)
      assert (Hinf : lt (dist face) Infinity = true).
      { destruct bm as [b|].
        - destruct Hbest as (-> & Hb & _). eapply lt_trans; eassumption.
        - subst bd. assumption. }
      split; cbn [fst snd].
      * intros f Hf. apply elem_of_app in Hf as [Hf|Hf].
        -- destruct (lt (dist f) (dist face)) eqn:Hf'; [|reflexivity].
           rewrite <- (Hmin f Hf). symmetry. eapply lt_trans; eassumption.
        -- apply list_elem_of_singleton in Hf as ->. apply lt_irrefl.
      * split; [reflexivity|]. split; [assumption|].
        exists (length faces). split.
        -- rewrite lookup_app_r by lia. rewrite Nat.sub_diag. reflexivity.
        -- intros j f Hj Hf. rewrite lookup_app_l in Hf by assumption.
           destruct (dist f) eqn:Hdf; try (right; reflexivity); left;
             rewrite <- Hdf in *;
             (apply (lt_of_not_lt _ bd);
              [ exact Hlt
              | apply Hmin; apply list_elem_of_lookup; eauto
              | rewrite Hdf; discriminate ]).
    + (* the best match stays *)
      split; cbn [fst snd].
      * intros f Hf. apply elem_of_app in Hf as [Hf|Hf]; [auto|].
        apply list_elem_of_singleton in Hf as ->. assumption.
      * destruct bm as [b|]; [|assumption].
        destruct Hbest as (Hbd & Hb & k & Hk & Hfirst).
        split; [assumption|]. split; [assumption|].
        exists k. split.
        -- apply lookup_app_l_Some. assumption.
        -- intros j f Hj Hf. apply (Hfirst j f Hj).
           rewrite lookup_app_l in Hf; [assumption|].
           apply lookup_lt_Some in Hk. lia.
Qed.
End Scan.

(** ** Descriptors of unequal length *)

Section Lengths.
Lemma elem_take (a : list number) (n i : nat) :
  i < n -> elem (take n a) i = elem a i.
Proof. intros Hi. unfold elem. rewrite lookup_take_lt by assumption. reflexivity. Qed.

Lemma fold_left_ext_seq {S : Type} (f g : S -> nat -> S) (n : nat) (s : S) :
  (forall acc i, i < n -> f acc i = g acc i) ->
  fold_left f (seq 0 n) s = fold_left g (seq 0 n) s.
Proof.
  intros Hfg. induction n as [|n IH].
  - reflexivity.
  - rewrite seq_S, !fold_left_app. cbn. rewrite IH by (intros; apply Hfg; lia).
    apply Hfg. lia.
Qed.

Lemma add_NaN_r (x : number) : add x NaN = NaN.
Proof. destruct x as [[]|[]| |[] m e]; reflexivity. Qed.

Lemma sub_NaN_r (x : number) : sub x NaN = NaN.
Proof. destruct x as [[]|[]| |[] m e]; reflexivity. Qed.

(** Once the running sum is NaN it stays NaN. *)
Lemma sum_stays_NaN (desc1 desc2 : list number) (l : list nat) :
  fold_left (fun sum i => add sum (Math_pow_2 (sub (elem desc1 i) (elem desc2 i)))) l NaN
  = NaN.
Proof. induction l as [|i l IH]; [reflexivity | exact IH]. Qed.

Lemma sum_NaN_past_end (desc1 desc2 : list number) :
  length desc2 < length desc1 ->
  fold_left (fun sum i => add sum (Math_pow_2 (sub (elem desc1 i) (elem desc2 i))))
    (seq 0 (length desc1)) zero
  = NaN.
Proof.
  intros Hlen.
  replace (length desc1)
    with (length desc2 + S (length desc1 - S (length desc2))) by lia.
  rewrite seq_app, fold_left_app. cbn [seq fold_left].
  replace (elem desc2 (0 + length desc2)) with NaN.
  - rewrite sub_NaN_r. change (Math_pow_2 NaN) with NaN. rewrite add_NaN_r.
    apply sum_stays_NaN.
  - unfold elem. rewrite lookup_ge_None_2 by lia. reflexivity.
Qed.

(** C5 (amended). No length check is made. When the stored descriptor
    is at least as long as the probe, the distance is the one to its
    first [length probe] components and the rest is ignored; when it is
    shorter, the distance is NaN and the scan never selects that
    record. *)
Theorem euclideanDistance_unequal_lengths (probe stored : list number) :
  (length probe <= length stored ->
   euclideanDistance probe stored
   = euclideanDistance probe (take (length probe) stored))
  /\ (length stored < length probe ->
      euclideanDistance probe stored = NaN)
  /\ (forall face best,
        length (descriptor face) < length probe ->
        scan_step probe best face = best).
Proof.
  split; [|split].
  - intros _. unfold euclideanDistance. f_equal.
    apply fold_left_ext_seq. intros acc i Hi.
    rewrite elem_take by assumption. reflexivity.
  - intros Hlen. unfold euclideanDistance.
    rewrite sum_NaN_past_end by assumption. reflexivity.
  - intros face best Hlen. unfold scan_step, euclideanDistance.
    rewrite sum_NaN_past_end
      by (unfold Float32Array; rewrite length_fmap; assumption).
    reflexivity.
Qed.
End Lengths.

(** ** Exceptions *)

Lemma bind_Return {A B} (a : A) (k : A -> outcome B) : (Return a ≫= k) = k a.
Proof. reflexivity. Qed.

Lemma bind_Throw {A B} (e : string) (k : A -> outcome B) : (Throw e ≫= k) = Throw e.
Proof. reflexivity. Qed.

(** ** Properties of the routes *)

Section RouteProperties.
Local Open Scope string_scope.

Variable Image : Type.
Variable loadImage : string -> string + Image.
Variable detectSingleFace : Image -> detection.

Abbreviation extract := (extractFaceDescriptor Image loadImage detectSingleFace).
Abbreviation register := (post_register Image loadImage detectSingleFace).
Abbreviation attendance := (post_attendance Image loadImage detectSingleFace).

Lemma register_unfold now name image d :
  truthy name = true -> truthy image = true ->
  register now {| req_name := Some name; req_image := Some image |} d =
  try_catch d (json_error "Server error during registration")
    (detection ← extract image;
     match detection with
     | None => mret (no_face_detected_register, d)
     | Some detected =>
         faces ← loadFaces d;
         let faceRecord :=
           {| name := trim name; descriptor := detected; registeredAt := now |} in
         let faces :=
           match findIndex (fun f => String.eqb (toLowerCase (Model.name f)) (toLowerCase name)) faces with
           | Some i => <[i := faceRecord]> faces
           | None => (faces ++ [faceRecord])%list
           end in
         mret (json_ok [("success", JBool true);
                        ("message", JStr ("Face registered successfully for " ++ name));
                        ("totalRegistered", JNum (of_nat (length faces)))],
               saveFaces faces d)
     end).
Proof.
  intros Hn Hi. unfold post_register. cbn [req_name req_image].
  rewrite Hn, Hi. reflexivity.
Qed.

(** C6. A register call whose extractor reports no face answers
    NoFaceDetected (status 400) and leaves both files as they were. *)
Theorem register_no_face_store_unchanged now name image d :
  truthy name = true -> truthy image = true ->
  extract image = Return None ->
  register now {| req_name := Some name; req_image := Some image |} d
  = (no_face_detected_register, d).
Proof.
  intros Hn Hi He. rewrite register_unfold by assumption.
  rewrite He. reflexivity.
Qed.
Lemma attendance_unfold now image d :
  truthy image = true ->
  attendance now {| req_name := None; req_image := Some image |} d =
  try_catch d (json_error "Server error during attendance check")
    (detection ← extract image;
     match detection with
     | None => mret (no_face_detected_attendance, d)
     | Some probe =>
         faces ← loadFaces d;
         if Nat.eqb (length faces) 0
         then mret (no_registered_faces, d)
         else
           let '(bestMatch, bestDistance) := bestOf probe faces in
           match bestMatch with
           | Some matched =>
               if lt bestDistance THRESHOLD then
                 let attendanceRecord :=
                   {| att_name := Model.name matched;
                      timestamp := now;
                      confidence :=
                        Math_round (mul (sub (of_Z 1) bestDistance) (of_Z 100)) |} in
                 attendanceLog ← loadAttendance d;
                 mret (json_ok [("success", JBool true);
                                ("matched", JBool true);
                                ("name", JStr (Model.name matched));
                                ("confidence", JNum (confidence attendanceRecord));
                                ("timestamp", JStr (timestamp attendanceRecord));
                                ("message", JStr ("Attendance marked for " ++ Model.name matched))],
                       saveAttendance (attendanceLog ++ [attendanceRecord])%list d)
               else mret (not_recognized, d)
           | None => mret (not_recognized, d)
           end
     end).
Proof.
  intros Hi. unfold post_attendance. cbn [req_image].
  rewrite Hi. reflexivity.
Qed.

(** C4 (amended). Against a store that holds no record, a check-in
    whose image yields a face answers NoRegisteredFaces (status 404)
    and writes nothing; when the extractor finds no face the answer is
    NoFaceDetected (status 400), whatever the store holds. *)
Theorem attendance_empty_store now image d :
  truthy image = true ->
  (forall probe,
      extract image = Return (Some probe) ->
      loadFaces d = Return [] ->
      attendance now {| req_name := None; req_image := Some image |} d
      = (no_registered_faces, d))
  /\ (extract image = Return None ->
      attendance now {| req_name := None; req_image := Some image |} d
      = (no_face_detected_attendance, d)).
Proof.
  intros Hi. split.
  - intros probe He Hl. rewrite attendance_unfold by assumption.
    rewrite He. cbn. rewrite Hl. reflexivity.
  - intros He. rewrite attendance_unfold by assumption.
    rewrite He. reflexivity.
Qed.

(** C9. The reply of [GET /api/faces] is a function of the names and
    registration times alone: two stores that agree on them, record by
    record, get the same reply whatever their descriptors are. *)
Theorem get_faces_hides_descriptors (d1 d2 : disk) (faces1 faces2 : list FaceRecord) :
  loadFaces d1 = Return faces1 ->
  loadFaces d2 = Return faces2 ->
  (fun f => (Model.name f, registeredAt f)) <$> faces1
  = (fun f => (Model.name f, registeredAt f)) <$> faces2 ->
  get_faces d1 = get_faces d2.
Proof.
  intros H1 H2 Heq. unfold get_faces. rewrite H1, H2. cbn.
  assert (Hlen : length faces1 = length faces2).
  { rewrite <- (length_fmap (fun f => (Model.name f, registeredAt f)) faces1), Heq.
    apply length_fmap. }
  rewrite Hlen.
  assert (Hview :
    (fun f => JObj [("name", JStr (Model.name f)); ("registeredAt", JStr (registeredAt f))]) <$> faces1
    = (fun f => JObj [("name", JStr (Model.name f)); ("registeredAt", JStr (registeredAt f))]) <$> faces2).
  { clear -Heq. revert faces2 Heq.
    induction faces1 as [|f1 r1 IH]; intros [|f2 r2] Heq; try discriminate; [reflexivity|].
    cbn in *. injection Heq as Hn Hr Hrest. rewrite Hn, Hr. f_equal. auto. }
  rewrite Hview. reflexivity.
Qed.

(** [findIndex] returns the first position whose element passes. *)
Lemma findIndex_Some {A} (p : A -> bool) (l : list A) (i : nat) :
  findIndex p l = Some i ->
  exists x, l !! i = Some x /\ p x = true
            /\ forall j y, j < i -> l !! j = Some y -> p y = false.
Proof.
  revert i. induction l as [|a l IH]; intros i H; [discriminate|].
  cbn in H. destruct (p a) eqn:Hpa.
  - injection H as <-. exists a. repeat split; [assumption | intros j y Hj; lia].
  - destruct (findIndex p l) as [k|] eqn:Hk; [|discriminate].
    cbn in H. injection H as <-.
    destruct (IH k eq_refl) as (x & Hx & Hpx & Hfirst).
    exists x. repeat split; [assumption..|].
    intros [|j] y Hj Hy; cbn in Hy.
    + congruence.
    + apply (Hfirst j); [lia | assumption].
Qed.

Lemma findIndex_None {A} (p : A -> bool) (l : list A) :
  findIndex p l = None -> forall x, x ∈ l -> p x = false.
Proof.
  induction l as [|a l IH]; intros H x Hx.
  - inversion Hx.
  - cbn in H. destruct (p a) eqn:Hpa; [discriminate|].
    destruct (findIndex p l) eqn:Hk; [discriminate|].
    inversion Hx; subst; auto.
Qed.

Lemma name_eqb_iff (a b : string) :
  String.eqb (toLowerCase a) (toLowerCase b) = true <-> same_name a b.
Proof. apply String.eqb_eq. Qed.

(** What a successful registration writes to [faces.json]. *)
Lemma register_writes now nm image d faces detected :
  truthy nm = true -> truthy image = true ->
  extract image = Return (Some detected) ->
  loadFaces d = Return faces ->
  loadFaces (snd (register now {| req_name := Some nm; req_image := Some image |} d))
  = Return
      (let faceRecord :=
         {| name := trim nm; descriptor := detected; registeredAt := now |} in
       match findIndex (fun f => String.eqb (toLowerCase (Model.name f)) (toLowerCase nm)) faces with
       | Some i => <[i := faceRecord]> faces
       | None => (faces ++ [faceRecord])%list
       end).
Proof.
  intros Hn Hi He Hl. rewrite register_unfold by assumption.
  rewrite He. cbn. rewrite Hl. reflexivity.
Qed.

(** The attendance route is [matcher] at the threshold 0.6, followed by
    the append to the log when the result is [Matched]. *)
Lemma attendance_runs_matcher now image d probe faces :
  truthy image = true ->
  extract image = Return (Some probe) ->
  loadFaces d = Return faces ->
  faces <> [] ->
  attendance now {| req_name := None; req_image := Some image |} d
  = match matcher probe faces THRESHOLD with
    | Matched who conf =>
        match loadAttendance d with
        | Return attendanceLog =>
            (recognized who conf now,
             saveAttendance
               (attendanceLog ++
                [{| att_name := who; timestamp := now; confidence := conf |}])%list d)
        | Throw e => (json_error "Server error during attendance check" e, d)
        end
    | Unmatched _ => (not_recognized, d)
    end.
Proof.
  intros Hi He Hl Hne.
  rewrite attendance_unfold by assumption.
  rewrite He, bind_Return. rewrite Hl, bind_Return.
  destruct faces as [|f0 faces']; [congruence|].
  change (Nat.eqb (length (f0 :: faces')) 0) with false. cbv beta iota.
  unfold matcher.
  destruct (bestOf probe (f0 :: faces')) as [[best|] bd]; [|reflexivity].
  destruct (lt bd THRESHOLD); [|reflexivity].
  destruct (loadAttendance d) as [attendanceLog|e]; reflexivity.
Qed.
End RouteProperties.

(** ** The matcher *)

Section Matcher.
Local Open Scope string_scope.



End Matcher.

Lemma register_no_face_store_unchanged_witness :
  Studio.register "2024-05-01T08:00:00.000Z" (Studio.with_name "Ann" "empty-room") Studio.two_faces
  = (no_face_detected_register, Studio.two_faces).
Proof.
  apply (register_no_face_store_unchanged string Studio.load Studio.detect);
    reflexivity.
Defined.
Lemma attendance_empty_store_witness :
  Studio.attendance "2024-05-01T08:00:00.000Z" (Studio.with_image "centre") Studio.no_files
  = (no_registered_faces, Studio.no_files).
Proof.
  refine (proj1 (attendance_empty_store string Studio.load Studio.detect _ "centre"%string _ _)
            [of_Z 5; of_Z 5] _ _); reflexivity.
Defined.

(** C4 as stated fails: with no record stored and a picture without a
    face, the reply is NoFaceDetected, not NoRegisteredFaces. *)
Lemma attendance_empty_store_no_face_counterexample :
  loadFaces Studio.no_files = Return []
  /\ fst (Studio.attendance "2024-05-01T08:00:00.000Z"
            (Studio.with_image "empty-room") Studio.no_files)
     = no_face_detected_attendance
  /\ no_face_detected_attendance <> no_registered_faces.
Proof. split; [reflexivity | split; [reflexivity | discriminate]]. Qed.

Lemma get_faces_hides_descriptors_witness :
  get_faces Studio.two_faces
  = get_faces {| faces_json :=
                   Document [ {| name := "A"; descriptor := [of_Z 7];
                                 registeredAt := "2024-01-01T00:00:00.000Z" |};
                              {| name := "B"; descriptor := [];
                                 registeredAt := "2024-01-01T00:00:00.000Z" |} ];
                 attendance_json := Absent |}.
Proof.
  eapply get_faces_hides_descriptors; reflexivity.
Defined.

(** C3 at its failing input: the store holds one record named ["Bob"],
    as registering ["Bob "] on an empty disk leaves it; registering
    ["Bob "] again looks the untrimmed name up, finds nothing, and
    appends a second record named ["Bob"] instead of replacing the
    first: the count goes from 1 to 2. *)
Lemma register_untrimmed_name_appends :
  let bob := {| name := "Bob"; descriptor := [of_Z 0];
                registeredAt := "2024-05-01T08:00:00.000Z" |} in
  let store := {| faces_json := Document [bob]; attendance_json := Absent |} in
  let now := "2024-05-01T08:05:00.000Z" in
  let faceRecord := {| name := "Bob"; descriptor := [of_Z 5; of_Z 5]; registeredAt := now |} in
  snd (Studio.register "2024-05-01T08:00:00.000Z"
         (Studio.with_name "Bob " "origin-1d") Studio.no_files) = store
  /\ Studio.register now (Studio.with_name "Bob " "centre") store
     = (registered_reply "Bob " 2, saveFaces [bob; faceRecord] store)
  /\ same_name (name faceRecord) (name bob)
  /\ length [bob; faceRecord] = S (length [bob]).
Proof.
  repeat split; vm_compute; reflexivity.
Qed.

(** C2 at its failing input: the name ["Bob "] (with a trailing blank)
    registered twice from an empty disk is looked up untrimmed but stored
    trimmed, and the store ends with two records named ["Bob"]. *)
Lemma register_untrimmed_name_twice :
  let calls :=
    [("2024-05-01T08:00:00.000Z", Studio.with_name "Bob " "origin-1d");
     ("2024-05-01T08:05:00.000Z", Studio.with_name "Bob " "origin-1d")] in
  exists faces,
    loadFaces (register_all string Studio.load Studio.detect calls Studio.no_files) = Return faces
    /\ name <$> faces = ["Bob"; "Bob"]
    /\ ~ unique_names faces.
Proof.
  eexists. split; [reflexivity|]. split; [reflexivity|].
  unfold unique_names. cbn. intros Hnd.
  apply NoDup_cons in Hnd as [Hnotin _]. apply Hnotin. left.
Qed.

(** C7 at its failing input: a name made of blanks passes the check on
    the raw field and is stored trimmed, that is, empty. *)
Lemma register_blank_name_stored_empty :
  exists faces,
    loadFaces (snd (Studio.register "2024-05-01T08:00:00.000Z"
                      (Studio.with_name "  " "origin-1d") Studio.no_files))
    = Return faces
    /\ name <$> faces = [""].
Proof. eexists. split; reflexivity. Qed.

(** The two scenarios of the matcher: a probe at distance 0.1 of ["A"]
    is recognised with confidence 90; a probe at distance 7.07.. of both
    records is not. *)
Example attendance_near_origin :
  fst (Studio.attendance "2024-05-01T08:00:00.000Z"
         (Studio.with_image "near-origin") Studio.two_faces)
  = recognized "A" (of_Z 90) "2024-05-01T08:00:00.000Z".
Proof. vm_compute. reflexivity. Qed.

Example attendance_centre :
  Studio.attendance "2024-05-01T08:00:00.000Z" (Studio.with_image "centre") Studio.two_faces
  = (not_recognized, Studio.two_faces).
Proof. vm_compute. reflexivity. Qed.

(** The same two scenarios on the matcher alone: the unmatched result
    keeps the distance to the first of the two records, which are equally
    far. *)
Example matcher_near_origin :
  matcher [of_Z 0; Studio.tenth] [Studio.A; Studio.B] THRESHOLD = Matched "A" (of_Z 90).
Proof. vm_compute. reflexivity. Qed.

Example matcher_centre :
  matcher [of_Z 5; of_Z 5] [Studio.A; Studio.B] THRESHOLD
  = Unmatched (distance_to [of_Z 5; of_Z 5] Studio.A)
  /\ distance_to [of_Z 5; of_Z 5] Studio.A = distance_to [of_Z 5; of_Z 5] Studio.B
  /\ lt (of_Z 7) (distance_to [of_Z 5; of_Z 5] Studio.A) = true.
Proof. repeat split; vm_compute; reflexivity. Qed.


Lemma euclideanDistance_unequal_lengths_witness :
  euclideanDistance [of_Z 0] [of_Z 0; of_Z 5]
  = euclideanDistance [of_Z 0] (take 1 [of_Z 0; of_Z 5])
  /\ euclideanDistance [of_Z 0; of_Z 5] [of_Z 0] = NaN.
Proof.
  split.
  - apply (euclideanDistance_unequal_lengths [of_Z 0] [of_Z 0; of_Z 5]). cbn. lia.
  - apply (euclideanDistance_unequal_lengths [of_Z 0; of_Z 5] [of_Z 0]). cbn. lia.
Defined.

(** C5 as stated fails: a one-component probe against two-component
    records raises nothing; the distance to [[0; 5]] is 0, the second
    component being ignored, and the check-in succeeds with a match. *)
Lemma attendance_length_mismatch_counterexample :
  euclideanDistance [of_Z 0] [of_Z 0; of_Z 5] = zero
  /\ (forall f, f ∈ [Studio.A; Studio.B] -> length (descriptor f) <> length [of_Z 0])
  /\ fst (Studio.attendance "2024-05-01T08:00:00.000Z"
            (Studio.with_image "origin-1d") Studio.two_faces)
     = recognized "A" (of_Z 100) "2024-05-01T08:00:00.000Z".
Proof.
  split; [vm_compute; reflexivity|]. split; [|vm_compute; reflexivity].
  intros f Hf.
  repeat (apply elem_of_cons in Hf as [->|Hf]; [cbn; lia|]).
  inversion Hf.
Qed.

(** ** The distance *)

Section Distance.

Lemma lt_zero_sqrt (s : number) : lt (Math_sqrt s) zero = false.
Proof.
  pose proof (Math_sqrt_shape s) as Hshape.
  destruct (Math_sqrt s) as [b|b| |b m e].
  - reflexivity.
  - subst b. reflexivity.
  - reflexivity.
  - destruct Hshape as [-> _]. reflexivity.
Qed.

(** X2. The distance computed by [euclideanDistance] is NaN or at least 0:
    it is never below zero, whatever the two arrays hold. *)
Theorem euclideanDistance_not_negative (desc1 desc2 : list number) :
  lt (euclideanDistance desc1 desc2) zero = false.
Proof. unfold euclideanDistance. apply lt_zero_sqrt. Qed.

Lemma sub_self (x : number) :
  match x with S754_zero _ | S754_finite _ _ _ => True | _ => False end ->
  sub x x = zero.
Proof.
  destruct x as [[]|[]| |s m e]; intros Hx; try contradiction; try reflexivity.
  unfold sub, SFsub. rewrite Z.min_id.
  rewrite (shl_align_up m e e) by lia. cbn [fst].
  rewrite Z.sub_diag. reflexivity.
Qed.

Lemma elem_Float32Array (a : list number) (i : nat) :
  elem (Float32Array a) i = match a !! i with Some x => fround x | None => NaN end.
Proof.
  unfold elem, Float32Array. rewrite list_lookup_fmap.
  destruct (a !! i); reflexivity.
Qed.

Lemma sum_of_zeros (desc1 desc2 : list number) (l : list nat) :
  (forall i, i ∈ l -> sub (elem desc1 i) (elem desc2 i) = zero) ->
  fold_left (fun sum i => add sum (Math_pow_2 (sub (elem desc1 i) (elem desc2 i)))) l zero
  = zero.
Proof.
  induction l as [|i l IH]; intros Hl; [reflexivity|].
  cbn [fold_left]. rewrite (Hl i) by (left). apply IH.
  intros j Hj. apply Hl. right. exact Hj.
Qed.

Lemma squares_to_own_Float32Array (probe : list number) :
  Forall float32_value probe ->
  fold_left
    (fun sum i => add sum (Math_pow_2 (sub (elem probe i) (elem (Float32Array probe) i))))
    (seq 0 (length probe)) zero
  = zero.
Proof.
  intros Hall. apply sum_of_zeros.
  intros i Hi. apply elem_of_seq in Hi as [_ Hi]. cbn in Hi.
  rewrite elem_Float32Array. unfold elem.
  destruct (lookup_lt_is_Some_2 probe i Hi) as [x Hx]. rewrite Hx.
  rewrite Forall_lookup in Hall. destruct (Hall i x Hx) as [-> Hfin].
  apply sub_self. exact Hfin.
Qed.

(** X4. A descriptor made of finite 32-bit values is at distance 0 of the
    [Float32Array] built from it, as in a check-in with the picture that
    was registered. *)
Theorem euclideanDistance_to_itself (probe : list number) :
  Forall float32_value probe ->
  euclideanDistance probe (Float32Array probe) = zero.
Proof.
  intros Hall. unfold euclideanDistance.
  rewrite squares_to_own_Float32Array by exact Hall.
  reflexivity.
Qed.
End Distance.

Lemma euclideanDistance_to_itself_witness :
  euclideanDistance [of_Z 0; of_Z 5] (Float32Array [of_Z 0; of_Z 5]) = zero.
Proof.
  apply euclideanDistance_to_itself.
  repeat constructor; vm_compute; reflexivity.
Defined.

(** ** Symmetry of the distance *)

Section Symmetry.
Local Open Scope Z_scope.

Lemma pow_2_opp (z : number) : Math_pow_2 (SFopp z) = Math_pow_2 z.
Proof.
  destruct z as [[]|[]| |[] m e]; reflexivity.
Qed.

Lemma binary_round_sign (p : positive) (e : Z) :
  binary_round prec emax true p e = SFopp (binary_round prec emax false p e).
Proof.
  unfold binary_round.
  destruct (shl_align p e (fexp prec emax (Zpos (digits2_pos p) + e))) as [mz ez].
  unfold binary_round_aux.
  destruct (shr_fexp prec emax (Zpos mz) ez loc_Exact) as [mrs' e'].
  destruct (shr_fexp prec emax (round_nearest_even (shr_m mrs') (loc_of_shr_record mrs')) e' loc_Exact)
    as [mrs'' e''].
  destruct (shr_m mrs'') as [|m|m]; [reflexivity| |reflexivity].
  destruct (e'' <=? emax - prec); reflexivity.
Qed.

Lemma binary_normalize_opp (z e : Z) :
  Math_pow_2 (binary_normalize prec emax (- z) e false)
  = Math_pow_2 (binary_normalize prec emax z e false).
Proof.
  destruct z as [|p|p]; [reflexivity| |].
  - change (Math_pow_2 (binary_round prec emax true p e)
            = Math_pow_2 (binary_round prec emax false p e)).
    rewrite binary_round_sign. apply pow_2_opp.
  - change (Math_pow_2 (binary_round prec emax false p e)
            = Math_pow_2 (binary_round prec emax true p e)).
    rewrite binary_round_sign. symmetry. apply pow_2_opp.
Qed.

(** The square of a difference does not depend on the order of the two
    numbers. *)
Lemma pow_2_sub_comm (x y : number) :
  Math_pow_2 (sub x y) = Math_pow_2 (sub y x).
Proof.
  destruct x as [[]|[]| |sx mx ex], y as [[]|[]| |sy my ey]; try reflexivity;
    try (destruct sx; reflexivity); try (destruct sy; reflexivity).
  unfold sub, SFsub. rewrite (Z.min_comm ey ex).
  set (a := cond_Zopp sx (Zpos (fst (shl_align mx ex (Z.min ex ey))))).
  set (b := cond_Zopp sy (Zpos (fst (shl_align my ey (Z.min ex ey))))).
  replace (b - a) with (- (a - b)) by lia.
  symmetry. apply binary_normalize_opp.
Qed.

(** X3. Between two arrays of the same length the distance does not
    depend on which one comes first. *)
Theorem euclideanDistance_symmetric (desc1 desc2 : list number) :
  length desc1 = length desc2 ->
  euclideanDistance desc1 desc2 = euclideanDistance desc2 desc1.
Proof.
  intros Hlen. unfold euclideanDistance. rewrite Hlen. f_equal.
  apply fold_left_ext_seq. intros acc i _. f_equal. apply pow_2_sub_comm.
Qed.
End Symmetry.

Lemma euclideanDistance_symmetric_witness :
  euclideanDistance [of_Z 0; of_Z 5] [of_Z 3; of_Z 1]
  = euclideanDistance [of_Z 3; of_Z 1] [of_Z 0; of_Z 5].
Proof. apply euclideanDistance_symmetric. reflexivity. Defined.

(** ** What the two POST routes write *)

Section Effects.
Local Open Scope string_scope.

Variable Image : Type.
Variable loadImage : string -> string + Image.
Variable detectSingleFace : Image -> detection.

Abbreviation extract := (extractFaceDescriptor Image loadImage detectSingleFace).
Abbreviation register := (post_register Image loadImage detectSingleFace).
Abbreviation attendance := (post_attendance Image loadImage detectSingleFace).

(** Every way [POST /api/attendance] can end: nothing is written, or
    one event for a stored record nearer than the threshold is appended
    to the log. *)
Lemma attendance_effect now req d :
  (snd (attendance now req d) = d /\ 
   (status (fst (attendance now req d)) <> 200%Z \/ fst (attendance now req d) = not_recognized))
  \/ exists image probe faces best attendanceLog,
       req_image req = Some image
       /\ extract image = Return (Some probe)
       /\ loadFaces d = Return faces
       /\ best ∈ faces
       /\ lt (distance_to probe best) THRESHOLD = true
       /\ loadAttendance d = Return attendanceLog
       /\ attendance now req d
          = (recognized (name best) (confidence_of (distance_to probe best)) now,
             saveAttendance
               (attendanceLog ++
                [{| att_name := name best; timestamp := now;
                    confidence := confidence_of (distance_to probe best) |}])%list d).
Proof.
  unfold post_attendance.
  destruct (req_image req) as [image|]; [|left; split; [reflexivity | left; discriminate]].
  destruct (truthy image); cbn [negb]; [|left; split; [reflexivity | left; discriminate]].
  destruct (extract image) as [[probe|]|e] eqn:He; rewrite ?bind_Return, ?bind_Throw;
    [ | left; split; [reflexivity | left; discriminate]
      | left; split; [reflexivity | left; discriminate] ].
  destruct (loadFaces d) as [faces|e] eqn:Hl; rewrite ?bind_Return, ?bind_Throw;
    [ | left; split; [reflexivity | left; discriminate] ].
  destruct (Nat.eqb (length faces) 0);
    [ left; split; [reflexivity | left; discriminate] | ].
  pose proof (bestOf_scanned probe faces) as [_ Hbest].
  destruct (bestOf probe faces) as [[best|] bd]; cbn [fst snd] in Hbest;
    [ | left; split; [reflexivity | right; reflexivity] ].
  destruct Hbest as (-> & _ & k & Hk & _).
  destruct (lt (distance_to probe best) THRESHOLD) eqn:Hlt;
    [ | left; split; [reflexivity | right; reflexivity] ].
  destruct (loadAttendance d) as [attendanceLog|e] eqn:Hlog;
    rewrite ?bind_Return, ?bind_Throw;
    [ | left; split; [reflexivity | left; discriminate] ].
  right. exists image, probe, faces, best, attendanceLog.
  repeat (split; [first [reflexivity | assumption | (apply list_elem_of_lookup; eauto)]|]).
  reflexivity.
Qed.

(** Every way [POST /api/register] can end: a refusal that writes
    nothing, or the upsert of one record built from the request. *)
Lemma register_effect now req d :
  (snd (register now req d) = d /\ status (fst (register now req d)) <> 200%Z)
  \/ exists nm image detected faces,
       req_name req = Some nm
       /\ req_image req = Some image
       /\ truthy nm = true
       /\ truthy image = true
       /\ extract image = Return (Some detected)
       /\ loadFaces d = Return faces
       /\ register now req d
          = (let faces' :=
               upsert nm {| name := trim nm; descriptor := detected; registeredAt := now |} faces in
             (registered_reply nm (length faces'), saveFaces faces' d)).
Proof.
  unfold post_register.
  destruct (req_name req) as [nm|]; [|left; split; [reflexivity | discriminate]].
  destruct (req_image req) as [image|]; [|left; split; [reflexivity | discriminate]].
  destruct (truthy nm) eqn:Hn; cbn [negb orb]; [|left; split; [reflexivity | discriminate]].
  destruct (truthy image) eqn:Hi; cbn [negb]; [|left; split; [reflexivity | discriminate]].
  destruct (extract image) as [[detected|]|e] eqn:He; rewrite ?bind_Return, ?bind_Throw;
    [ | left; split; [reflexivity | discriminate]
      | left; split; [reflexivity | discriminate] ].
  destruct (loadFaces d) as [faces|e] eqn:Hl; rewrite ?bind_Return, ?bind_Throw;
    [ | left; split; [reflexivity | discriminate] ].
  right. exists nm, image, detected, faces.
  repeat (split; [first [reflexivity | assumption]|]).
  reflexivity.
Qed.

Lemma loadFaces_saveFaces faces d : loadFaces (saveFaces faces d) = Return faces.
Proof. reflexivity. Qed.

(** X8. A request answered with status 400 or 404 (a missing field,
    no face in the picture, no record stored) leaves both files exactly
    as they were, for registration and for check-in: these replies are
    sent before any file is written. *)
Theorem refused_request_writes_nothing now req d :
  (status (fst (register now req d)) = 400%Z
   \/ status (fst (register now req d)) = 404%Z ->
   snd (register now req d) = d)
  /\ (status (fst (attendance now req d)) = 400%Z
      \/ status (fst (attendance now req d)) = 404%Z ->
      snd (attendance now req d) = d).
Proof.
  split; intros Hstatus.
  - destruct (register_effect now req d)
      as [[Hd _]|(nm & image & detected & faces & H)]; [exact Hd|].
    destruct H as (_ & _ & _ & _ & _ & _ & Hr). rewrite Hr in Hstatus.
    destruct Hstatus as [Hs|Hs]; discriminate Hs.
  - destruct (attendance_effect now req d)
      as [[Hd _]|(image & probe & faces & best & lg & H)]; [exact Hd|].
    destruct H as (_ & _ & _ & _ & _ & _ & Hr). rewrite Hr in Hstatus.
    destruct Hstatus as [Hs|Hs]; discriminate Hs.
Qed.

(** X9. Registration never touches the attendance log, and a check-in
    never touches the face store. *)
Theorem routes_write_their_own_file now req d :
  attendance_json (snd (register now req d)) = attendance_json d
  /\ faces_json (snd (attendance now req d)) = faces_json d.
Proof.
  split.
  - destruct (register_effect now req d) as [[-> _]|(nm & image & detected & faces & H)];
      [reflexivity|].
    destruct H as (_ & _ & _ & _ & _ & _ & ->). reflexivity.
  - destruct (attendance_effect now req d) as [[-> _]|(image & probe & faces & best & lg & H)];
      [reflexivity|].
    destruct H as (_ & _ & _ & _ & _ & _ & ->). reflexivity.
Qed.

(** A refusal leaves the log as it was, so nothing has been appended. *)
Lemma log_not_longer (attendanceLog : list AttendanceRecord) ev d :
  loadAttendance d = Return attendanceLog ->
  loadAttendance d = Return (attendanceLog ++ [ev])%list -> False.
Proof.
  intros H1 H2. rewrite H1 in H2. injection H2 as H2.
  apply (f_equal length) in H2. rewrite length_app in H2. cbn in H2. lia.
Qed.

(** X1. When a check-in answers that the face was recognised, the
    confidence in the reply is a whole number between 40 and 100, and
    the log has been extended by one event bearing the same name,
    confidence and timestamp. *)
Theorem attendance_confidence_percent now req d who conf ts :
  fst (attendance now req d) = recognized who conf ts ->
  (exists z, conf = of_Z z /\ (40 <= z <= 100)%Z)
  /\ le (of_Z 40) conf = true
  /\ le conf (of_Z 100) = true
  /\ exists attendanceLog,
       loadAttendance d = Return attendanceLog
       /\ snd (attendance now req d)
          = saveAttendance
              (attendanceLog ++
               [{| att_name := who; timestamp := ts; confidence := conf |}])%list d.
Proof.
  intros Hreply.
  destruct (attendance_effect now req d)
    as [[_ [Hs|Hs]]|(image & probe & faces & best & lg & H)].
  - rewrite Hreply in Hs. exfalso. apply Hs. reflexivity.
  - rewrite Hreply in Hs. unfold recognized, not_recognized, json_ok in Hs.
    exfalso. injection Hs as Hs. discriminate Hs.
  - destruct H as (_ & _ & _ & _ & Hlt & Hlog & Hr).
    rewrite Hr in Hreply |- *. cbn [fst snd] in *.
    unfold recognized, json_ok in Hreply.
    injection Hreply as Hwho Hconf Hts _.
    destruct (confidence_of_sqrt _ Hlt) as (z & Hz & Hrange).
    fold (euclideanDistance probe (Float32Array (descriptor best))) in Hz.
    fold (distance_to probe best) in Hz.
    rewrite Hz in Hconf. subst who conf ts.
    split; [exists z; split; [reflexivity | exact Hrange]|].
    destruct (percent_in_order z Hrange) as [Hlo Hhi].
    split; [exact Hlo|]. split; [exact Hhi|].
    exists lg. split; [exact Hlog|]. rewrite Hz. reflexivity.
Qed.

(** C10. An event appended to the log by a check-in (the log after the
    call is the log before it followed by that event) comes from a scan
    whose best distance is strictly below the threshold 0.6; its
    confidence is [round((1 - bestDistance) * 100)], which is at least 40
    and so never negative. *)
Theorem appended_confidence_at_least_40 now req d attendanceLog ev :
  loadAttendance d = Return attendanceLog ->
  loadAttendance (snd (attendance now req d)) = Return (attendanceLog ++ [ev])%list ->
  exists image probe faces best bestDistance,
    req_image req = Some image
    /\ extract image = Return (Some probe)
    /\ loadFaces d = Return faces
    /\ bestOf probe faces = (Some best, bestDistance)
    /\ lt bestDistance THRESHOLD = true
    /\ confidence ev = Math_round (mul (sub (of_Z 1) bestDistance) (of_Z 100))
    /\ le (of_Z 40) (confidence ev) = true
    /\ lt (confidence ev) zero = false.
Proof.
  intros Hlog Hafter. revert Hafter. unfold post_attendance.
  destruct (req_image req) as [image|];
    [|intros Hafter; destruct (log_not_longer _ _ _ Hlog Hafter)].
  destruct (truthy image); cbn [negb];
    [|intros Hafter; destruct (log_not_longer _ _ _ Hlog Hafter)].
  destruct (extract image) as [[probe|]|e] eqn:He; rewrite ?bind_Return, ?bind_Throw;
    [ | intros Hafter; destruct (log_not_longer _ _ _ Hlog Hafter)
      | intros Hafter; destruct (log_not_longer _ _ _ Hlog Hafter) ].
  destruct (loadFaces d) as [faces|e] eqn:Hl; rewrite ?bind_Return, ?bind_Throw;
    [ | intros Hafter; destruct (log_not_longer _ _ _ Hlog Hafter) ].
  destruct (Nat.eqb (length faces) 0);
    [ intros Hafter; destruct (log_not_longer _ _ _ Hlog Hafter) | ].
  pose proof (bestOf_scanned probe faces) as [_ Hbest].
  destruct (bestOf probe faces) as [[best|] bd] eqn:Hscan; cbn [fst snd] in Hbest;
    [ | intros Hafter; destruct (log_not_longer _ _ _ Hlog Hafter) ].
  destruct Hbest as (Hbd & _).
  destruct (lt bd THRESHOLD) eqn:Hlt;
    [ | intros Hafter; destruct (log_not_longer _ _ _ Hlog Hafter) ].
  assert (Hz : exists z, Math_round (mul (sub (of_Z 1) bd) (of_Z 100)) = of_Z z
                         /\ (40 <= z <= 100)%Z).
  { rewrite Hbd in Hlt |- *. exact (confidence_of_sqrt _ Hlt). }
  destruct Hz as (z & Hz & Hrange).
  rewrite Hlog, bind_Return. cbv beta iota zeta. rewrite Hz.
  unfold mret, outcome_ret, saveAttendance, loadAttendance. cbn [snd attendance_json].
  intros Hafter. injection Hafter as Hafter. apply app_inv_head in Hafter.
  injection Hafter as Hev. rewrite <- Hev.
  change (confidence {| att_name := name best; timestamp := now; confidence := of_Z z |})
    with (of_Z z).
  exists image, probe, faces, best, bd.
  split; [reflexivity|].
  split; [first [assumption | reflexivity]|].
  split; [first [assumption | reflexivity]|].
  split; [first [assumption | reflexivity]|].
  split; [exact Hlt|]. split; [symmetry; exact Hz|].
  split; [apply percent_in_order; exact Hrange | apply percent_not_negative; exact Hrange].
Qed.
End Effects.

(** ** The upsert of a record *)

Section Upsert.

Lemma upsert_length nm r faces :
  length faces <= length (upsert nm r faces) <= S (length faces).
Proof.
  unfold upsert.
  destruct (findIndex _ faces) as [i|].
  - rewrite length_insert. lia.
  - rewrite length_app. cbn. lia.
Qed.

Lemma upsert_holds_record nm r faces :
  exists i, upsert nm r faces !! i = Some r.
Proof.
  unfold upsert.
  destruct (findIndex _ faces) as [i|] eqn:Hfind.
  - destruct (findIndex_Some _ _ _ Hfind) as (old & Hold & _).
    exists i. apply list_lookup_insert_eq. apply lookup_lt_Some with old. exact Hold.
  - exists (length faces). rewrite lookup_app_r by lia.
    rewrite Nat.sub_diag. reflexivity.
Qed.

Lemma upsert_elem_of nm r faces f :
  f ∈ upsert nm r faces -> f = r \/ f ∈ faces.
Proof.
  unfold upsert.
  destruct (findIndex _ faces) as [i|].
  - intros Hf. apply list_elem_of_lookup in Hf as [j Hj].
    destruct (decide (j = i)) as [->|Hne].
    + left. assert (Hi : i < length faces).
      { apply lookup_lt_Some in Hj. rewrite length_insert in Hj. exact Hj. }
      rewrite list_lookup_insert_eq in Hj by exact Hi. congruence.
    + right. rewrite list_lookup_insert_ne in Hj by congruence.
      apply list_elem_of_lookup. eauto.
  - intros Hf. apply elem_of_app in Hf as [Hf|Hf]; [right; exact Hf|].
    left. apply list_elem_of_singleton in Hf. exact Hf.
Qed.

(** The upsert keeps the names distinct when the record is stored
    under the name it was looked up by. *)
Lemma upsert_unique_names nm r faces :
  same_name (name r) nm ->
  unique_names faces ->
  unique_names (upsert nm r faces).
Proof.
  unfold unique_names, upsert, same_name. intros Hname Hnd.
  destruct (findIndex _ faces) as [i|] eqn:Hfind.
  - destruct (findIndex_Some _ _ _ Hfind) as (old & Hold & Hp & _).
    apply String.eqb_eq in Hp.
    rewrite list_fmap_insert.
    rewrite list_insert_id; [exact Hnd|].
    rewrite list_lookup_fmap, Hold. cbn. congruence.
  - rewrite fmap_app. cbn [fmap list_fmap].
    apply NoDup_app. split; [exact Hnd|]. split; [|apply NoDup_singleton].
    intros x Hx Hx'. apply list_elem_of_singleton in Hx'. subst x.
    apply list_elem_of_fmap in Hx as (f & Hf & Hin).
    pose proof (findIndex_None _ _ Hfind f Hin) as Hfalse. cbn in Hfalse.
    apply String.eqb_neq in Hfalse. congruence.
Qed.
End Upsert.

(** ** Registration and check-in together *)

Section Stories.
Local Open Scope string_scope.

Variable Image : Type.
Variable loadImage : string -> string + Image.
Variable detectSingleFace : Image -> detection.

Abbreviation extract := (extractFaceDescriptor Image loadImage detectSingleFace).
Abbreviation register := (post_register Image loadImage detectSingleFace).
Abbreviation attendance := (post_attendance Image loadImage detectSingleFace).
Abbreviation extract_descriptor := (post_extract_descriptor Image loadImage detectSingleFace).

Lemma register_keeps_unique_names now req d faces :
  loadFaces d = Return faces ->
  unique_names faces ->
  (forall nm, req_name req = Some nm -> trim nm = nm) ->
  exists faces',
    loadFaces (snd (register now req d)) = Return faces' /\ unique_names faces'.
Proof.
  intros Hl Hnd Htrim.
  destruct (register_effect Image loadImage detectSingleFace now req d)
    as [[-> _]|(nm & image & detected & faces0 & H)]; [eauto|].
  destruct H as (Hnm & _ & _ & _ & _ & Hl0 & ->). cbn [snd].
  rewrite loadFaces_saveFaces. eexists. split; [reflexivity|].
  assert (faces0 = faces) as -> by congruence.
  apply upsert_unique_names; [|exact Hnd].
  unfold same_name. cbn [name]. rewrite (Htrim nm Hnm). reflexivity.
Qed.

(** X6. Registrations whose names carry no leading or trailing blank
    keep the store free of duplicates: from a store with at most one
    record per case-insensitive name, any run of such calls ends in a
    store with at most one record per case-insensitive name. *)
Theorem register_all_keeps_unique_names calls d faces :
  loadFaces d = Return faces ->
  unique_names faces ->
  Forall (fun call => forall nm, req_name (snd call) = Some nm -> trim nm = nm) calls ->
  exists faces',
    loadFaces (register_all Image loadImage detectSingleFace calls d) = Return faces'
    /\ unique_names faces'.
Proof.
  intros Hl Hnd Hcalls. revert d faces Hl Hnd.
  induction Hcalls as [|[now req] calls Hcall _ IH]; intros d faces Hl Hnd.
  - exists faces. split; assumption.
  - cbn [register_all fold_left fst snd] in *.
    destruct (register_keeps_unique_names now req d faces Hl Hnd Hcall)
      as (faces1 & Hl1 & Hnd1).
    exact (IH _ faces1 Hl1 Hnd1).
Qed.

(** X7. A registration answered with status 200 has stored a record
    under the trimmed name with the clock reading of the call; the
    store has grown by at most one record, [totalRegistered] is its new
    size, and [GET /api/faces] on the new files reports that same count. *)
Theorem register_success now req d :
  status (fst (register now req d)) = 200%Z ->
  exists nm faces faces',
    req_name req = Some nm
    /\ loadFaces d = Return faces
    /\ loadFaces (snd (register now req d)) = Return faces'
    /\ length faces <= length faces' <= S (length faces)
    /\ (exists i detected,
          faces' !! i
          = Some {| name := trim nm; descriptor := detected; registeredAt := now |})
    /\ fst (register now req d) = registered_reply nm (length faces')
    /\ exists listed,
         get_faces (snd (register now req d))
         = Return (json_ok [("success", JBool true);
                            ("count", JNum (of_nat (length faces')));
                            ("faces", JArr listed)])
         /\ length listed = length faces'.
Proof.
  intros Hstatus.
  destruct (register_effect Image loadImage detectSingleFace now req d)
    as [[_ Hno]|(nm & image & detected & faces & H)]; [contradiction|].
  destruct H as (Hnm & _ & _ & _ & _ & Hl & Hr). rewrite Hr. cbn [fst snd].
  set (r := {| name := trim nm; descriptor := detected; registeredAt := now |}).
  exists nm, faces, (upsert nm r faces).
  split; [exact Hnm|]. split; [exact Hl|]. split; [reflexivity|].
  split; [apply upsert_length|].
  split; [destruct (upsert_holds_record nm r faces) as [i Hi]; exists i, detected; exact Hi|].
  split; [reflexivity|].
  eexists. split; [reflexivity|]. apply length_fmap.
Qed.

(** X10. After a check-in, [GET /api/attendance] lists the records it
    listed before, in the same order, followed by at most one new record;
    a new record bears the name of a stored face and the clock reading
    of the check-in. *)
Theorem attendance_log_grows_at_the_end now req d attendanceLog :
  loadAttendance d = Return attendanceLog ->
  exists extra,
    length extra <= 1
    /\ get_attendance (snd (attendance now req d))
       = Return (json_ok [("success", JBool true);
                          ("count", JNum (of_nat (length attendanceLog + length extra)));
                          ("records",
                           JArr ((attendance_json_of <$> attendanceLog)
                                 ++ (attendance_json_of <$> extra))%list)])
    /\ forall ev, ev ∈ extra ->
         timestamp ev = now
         /\ exists faces f,
              loadFaces d = Return faces /\ f ∈ faces /\ att_name ev = name f.
Proof.
  intros Hlog. unfold get_attendance.
  destruct (attendance_effect Image loadImage detectSingleFace now req d)
    as [[-> _]|(image & probe & faces & best & lg & H)].
  - exists []. split; [cbn; lia|]. split.
    + rewrite Hlog, bind_Return, Nat.add_0_r, app_nil_r. reflexivity.
    + intros ev Hev. inversion Hev.
  - destruct H as (_ & _ & Hl & Hbest & _ & Hlog' & ->). cbn [snd].
    assert (lg = attendanceLog) as -> by congruence.
    eexists [_]. split; [cbn; lia|]. split.
    + cbn [loadAttendance saveAttendance attendance_json]. rewrite bind_Return.
      rewrite length_app, fmap_app. reflexivity.
    + intros ev Hev. apply list_elem_of_singleton in Hev as ->.
      split; [reflexivity|]. exists faces, best. auto.
Qed.
End Stories.

Section CheckIn.
Local Open Scope string_scope.

Variable Image : Type.
Variable loadImage : string -> string + Image.
Variable detectSingleFace : Image -> detection.

Abbreviation extract := (extractFaceDescriptor Image loadImage detectSingleFace).
Abbreviation register := (post_register Image loadImage detectSingleFace).
Abbreviation attendance := (post_attendance Image loadImage detectSingleFace).
Abbreviation extract_descriptor := (post_extract_descriptor Image loadImage detectSingleFace).

Lemma zero_distance_is_best (probe : list number) (faces : list FaceRecord) (r : FaceRecord) :
  r ∈ faces ->
  distance_to probe r = zero ->
  exists best b,
    bestOf probe faces = (Some best, S754_zero b)
    /\ best ∈ faces
    /\ distance_to probe best = S754_zero b.
Proof.
  intros Hr Hzero.
  pose proof (bestOf_scanned probe faces) as [Hmin Hbest].
  destruct (bestOf probe faces) as [[best|] bd]; cbn [fst snd] in *.
  - destruct Hbest as (-> & Hinf & k & Hk & _).
    specialize (Hmin r Hr). rewrite Hzero in Hmin.
    pose proof (Math_sqrt_shape
                  (fold_left
                     (fun sum i =>
                        add sum (Math_pow_2 (sub (elem probe i)
                                                 (elem (Float32Array (descriptor best)) i))))
                     (seq 0 (length probe)) zero)) as Hshape.
    fold (euclideanDistance probe (Float32Array (descriptor best))) in Hshape.
    fold (distance_to probe best) in Hshape.
    destruct (distance_to probe best) as [b|b| |b m e] eqn:Hd.
    + exists best, b. split; [reflexivity|]. split; [|first [exact Hd | reflexivity]].
      apply list_elem_of_lookup. eauto.
    + subst b. discriminate Hinf.
    + discriminate Hinf.
    + destruct Hshape as [-> _]. discriminate Hmin.
  - subst bd. specialize (Hmin r Hr). rewrite Hzero in Hmin. discriminate Hmin.
Qed.

Lemma lt_zero_threshold (b : bool) : lt (S754_zero b) THRESHOLD = true.
Proof. destruct b; reflexivity. Qed.

(** X5. A face that has just been registered is recognised: the check-in
    with the same picture matches a stored record at distance 0 with
    confidence 100 and logs it; when every record stored before the
    registration is at a positive distance, the name matched is the
    registered (trimmed) name. *)
Theorem checkin_after_register now1 now2 nm image d faces detected attendanceLog :
  truthy nm = true -> truthy image = true ->
  extract image = Return (Some detected) ->
  Forall float32_value detected ->
  loadFaces d = Return faces ->
  loadAttendance d = Return attendanceLog ->
  let d1 := snd (register now1 {| req_name := Some nm; req_image := Some image |} d) in
  exists best faces1,
    loadFaces d1 = Return faces1
    /\ best ∈ faces1
    /\ (exists b, distance_to detected best = S754_zero b)
    /\ attendance now2 {| req_name := None; req_image := Some image |} d1
       = (recognized (name best) (of_Z 100) now2,
          saveAttendance
            (attendanceLog ++
             [{| att_name := name best; timestamp := now2; confidence := of_Z 100 |}])%list d1)
    /\ ((forall f, f ∈ faces -> lt zero (distance_to detected f) = true) ->
        name best = trim nm).
Proof.
  intros Hn Hi He Hfloat Hl Hlog d1.
  set (r := {| name := trim nm; descriptor := detected; registeredAt := now1 |}).
  assert (Hd1 : d1 = saveFaces (upsert nm r faces) d).
  { subst d1. rewrite register_unfold by assumption.
    rewrite He, bind_Return, Hl, bind_Return. reflexivity. }
  clearbody d1. subst d1.
  assert (Hr : r ∈ upsert nm r faces).
  { destruct (upsert_holds_record nm r faces) as [i Hi']. apply list_elem_of_lookup. eauto. }
  assert (Hzero : distance_to detected r = zero).
  { unfold distance_to, euclideanDistance. cbn [descriptor r].
    rewrite squares_to_own_Float32Array by exact Hfloat. reflexivity. }
  destruct (zero_distance_is_best detected _ r Hr Hzero) as (best & b & Hbest & Hin & Hdist).
  exists best, (upsert nm r faces).
  split; [reflexivity|]. split; [exact Hin|]. split; [eauto|].
  split.
  - rewrite attendance_unfold by assumption.
    rewrite He, bind_Return. rewrite loadFaces_saveFaces, bind_Return.
    replace (Nat.eqb (length (upsert nm r faces)) 0) with false
      by (symmetry; apply Nat.eqb_neq; pose proof (upsert_length nm r faces);
          apply list_elem_of_lookup in Hr as [i Hi']; apply lookup_lt_Some in Hi'; lia).
    rewrite Hbest. rewrite lt_zero_threshold.
    change (loadAttendance (saveFaces (upsert nm r faces) d)) with (loadAttendance d).
    rewrite Hlog.
    rewrite bind_Return.
    change (Math_round (mul (sub (of_Z 1) (S754_zero b)) (of_Z 100)))
      with (confidence_of (S754_zero b)).
    rewrite confidence_of_zero. reflexivity.
  - intros Hfar. apply upsert_elem_of in Hin as [->|Hin]; [reflexivity|].
    specialize (Hfar best Hin). rewrite Hdist in Hfar. discriminate Hfar.
Qed.

(** X11. A failure inside the detector is swallowed by
    [extractFaceDescriptor] and reported as a picture without a face
    (status 400) by the three routes that call it; nothing is written. *)
Theorem detector_failure_is_no_face now nm image img d :
  truthy nm = true -> truthy image = true ->
  loadImage (stripDataUrl image) = inr img ->
  detectSingleFace img = DetectorError ->
  register now {| req_name := Some nm; req_image := Some image |} d
  = (no_face_detected_register, d)
  /\ attendance now {| req_name := None; req_image := Some image |} d
     = (no_face_detected_attendance, d)
  /\ extract_descriptor {| req_name := None; req_image := Some image |}
     = no_face_detected_register.
Proof.
  intros Hn Hi Hload Hdet.
  assert (He : extract image = Return None).
  { unfold extractFaceDescriptor. rewrite Hload, Hdet. reflexivity. }
  split; [|split].
  - rewrite register_unfold by assumption. rewrite He. reflexivity.
  - rewrite attendance_unfold by assumption. rewrite He. reflexivity.
  - unfold post_extract_descriptor. cbn [req_image]. rewrite Hi, He. reflexivity.
Qed.

(** X12. A picture that cannot be loaded makes each of the three routes
    answer status 500 with the loader's message under [error]; nothing
    is written and the store is not even read. *)
Theorem unreadable_image_is_server_error now nm image e d :
  truthy nm = true -> truthy image = true ->
  loadImage (stripDataUrl image) = inl e ->
  register now {| req_name := Some nm; req_image := Some image |} d
  = (json_error "Server error during registration" e, d)
  /\ attendance now {| req_name := None; req_image := Some image |} d
     = (json_error "Server error during attendance check" e, d)
  /\ extract_descriptor {| req_name := None; req_image := Some image |}
     = json_error "Server error during face extraction" e.
Proof.
  intros Hn Hi Hload.
  assert (He : extract image = Throw e).
  { unfold extractFaceDescriptor. rewrite Hload. reflexivity. }
  split; [|split].
  - rewrite register_unfold by assumption. rewrite He. reflexivity.
  - rewrite attendance_unfold by assumption. rewrite He. reflexivity.
  - unfold post_extract_descriptor. cbn [req_image]. rewrite Hi, He. reflexivity.
Qed.

(** X15. [POST /api/extract-descriptor] answers 200 exactly when the
    request carries a non-empty image in which a face is found, and then
    returns the descriptor the detector produced, component by
    component. *)
Theorem extract_descriptor_success req :
  status (extract_descriptor req) = 200%Z
  <-> exists image detected,
        req_image req = Some image /\ truthy image = true
        /\ extract image = Return (Some detected)
        /\ extract_descriptor req
           = json_ok [("success", JBool true);
                      ("descriptor", JArr (JNum <$> detected));
                      ("message", JStr "Face descriptor extracted successfully")].
Proof.
  unfold post_extract_descriptor. split.
  - destruct (req_image req) as [image|]; [|discriminate].
    destruct (truthy image) eqn:Hi; cbn [negb]; [|discriminate].
    destruct (extract image) as [[detected|]|e] eqn:He; [|discriminate|discriminate].
    intros _. exists image, detected. auto.
  - intros (image & detected & -> & -> & He & Hr). cbn [negb].
    rewrite He. reflexivity.
Qed.
End CheckIn.

(** ** Data URLs *)

Section DataUrl.
Local Open Scope string_scope.

Lemma append_String (c : ascii) (p s : string) : String c p ++ s = String c (p ++ s).
Proof. reflexivity. Qed.

Lemma append_empty (s : string) : "" ++ s = s.
Proof. reflexivity. Qed.

Lemma drop_prefix_app (p s : string) : drop_prefix p (p ++ s) = Some s.
Proof.
  induction p as [|c p IH]; [reflexivity|].
  rewrite append_String. cbn [drop_prefix]. rewrite Ascii.eqb_refl. exact IH.
Qed.

Lemma drop_prefix_Some (p s r : string) : drop_prefix p s = Some r -> s = p ++ r.
Proof.
  revert s. induction p as [|c p IH]; intros s H.
  - cbn [drop_prefix] in H. injection H as ->. reflexivity.
  - destruct s as [|c' s]; [discriminate|]. cbn [drop_prefix] in H.
    destruct (Ascii.eqb c c') eqn:Hc; [|discriminate].
    apply Ascii.eqb_eq in Hc. subst c'. rewrite append_String. f_equal. apply IH. exact H.
Qed.

Lemma skip_word_app (w rest : string) :
  all_chars is_word w = true ->
  skip_word (w ++ ";base64," ++ rest) = ";base64," ++ rest.
Proof.
  induction w as [|c w IH]; intros Hw; [reflexivity|].
  cbn [all_chars] in Hw. apply andb_true_iff in Hw as [Hc Hw].
  rewrite append_String. cbn [skip_word]. rewrite Hc. apply IH. exact Hw.
Qed.

Lemma skip_word_split (s : string) :
  exists w, s = w ++ skip_word s /\ all_chars is_word w = true.
Proof.
  induction s as [|c s (w & Hs & Hw)].
  - exists "". split; reflexivity.
  - cbn [skip_word]. destruct (is_word c) eqn:Hc.
    + exists (String c w). split; [rewrite append_String; f_equal; exact Hs|].
      cbn [all_chars]. rewrite Hc. exact Hw.
    + exists "". split; reflexivity.
Qed.

(** X16. The header of a data URL is removed: for a non-empty image kind
    made of word characters, what [stripDataUrl] returns is the payload
    after ["data:image/<kind>;base64,"]. *)
Theorem stripDataUrl_data_url (kind payload : string) :
  truthy kind = true ->
  all_chars is_word kind = true ->
  stripDataUrl ("data:image/" ++ kind ++ ";base64," ++ payload) = payload.
Proof.
  intros Hne Hkind. unfold stripDataUrl. rewrite drop_prefix_app.
  destruct kind as [|c kind]; [discriminate|].
  cbn [all_chars] in Hkind. apply andb_true_iff in Hkind as [Hc Hkind].
  rewrite append_String, Hc.
  rewrite skip_word_app by exact Hkind.
  rewrite drop_prefix_app. reflexivity.
Qed.

(** X17. Nothing else is ever removed: [stripDataUrl] returns its argument
    unchanged, or its argument without a leading
    ["data:image/<kind>;base64,"] whose kind is a non-empty run of word
    characters. *)
Theorem stripDataUrl_removes_header_only (s : string) :
  stripDataUrl s = s
  \/ exists kind,
       truthy kind = true /\ all_chars is_word kind = true
       /\ s = "data:image/" ++ kind ++ ";base64," ++ stripDataUrl s.
Proof.
  unfold stripDataUrl.
  destruct (drop_prefix "data:image/" s) as [[|c r]|] eqn:Hhead;
    [left; reflexivity| |left; reflexivity].
  destruct (is_word c) eqn:Hc; [|left; reflexivity].
  destruct (drop_prefix ";base64," (skip_word r)) as [rest|] eqn:Htail; [|left; reflexivity].
  right. destruct (skip_word_split r) as (w & Hr & Hw).
  exists (String c w). split; [reflexivity|].
  split; [cbn [all_chars]; rewrite Hc; exact Hw|].
  apply drop_prefix_Some in Hhead. apply drop_prefix_Some in Htail.
  rewrite Hhead. f_equal. rewrite append_String. f_equal.
  rewrite Hr at 1. rewrite Htail. reflexivity.
Qed.
End DataUrl.

Lemma stripDataUrl_data_url_witness :
  stripDataUrl "data:image/png;base64,iVBORw0KGgo=" = "iVBORw0KGgo=".
Proof.
  apply (stripDataUrl_data_url "png" "iVBORw0KGgo="); reflexivity.
Defined.

(** ** Refusals *)

Section Refusals.
Local Open Scope string_scope.

Variable Image : Type.
Variable loadImage : string -> string + Image.
Variable detectSingleFace : Image -> detection.

Abbreviation extract := (extractFaceDescriptor Image loadImage detectSingleFace).
Abbreviation register := (post_register Image loadImage detectSingleFace).
Abbreviation attendance := (post_attendance Image loadImage detectSingleFace).
Abbreviation extract_descriptor := (post_extract_descriptor Image loadImage detectSingleFace).

(** X18. A data URL and its bare payload are the same picture to
    [extractFaceDescriptor]. *)
Theorem extract_ignores_data_url_header (kind payload : string) :
  truthy kind = true ->
  all_chars is_word kind = true ->
  stripDataUrl payload = payload ->
  extract ("data:image/" ++ kind ++ ";base64," ++ payload) = extract payload.
Proof.
  intros Hne Hkind Hbare. unfold extractFaceDescriptor.
  replace (stripDataUrl ("data:image/" ++ kind ++ ";base64," ++ payload)) with payload;
    [rewrite Hbare; reflexivity|].
  unfold stripDataUrl at 1. rewrite drop_prefix_app.
  destruct kind as [|c kind]; [discriminate|].
  cbn [all_chars] in Hkind. apply andb_true_iff in Hkind as [Hc Hkind].
  rewrite append_String, Hc.
  rewrite skip_word_app by exact Hkind.
  rewrite drop_prefix_app. reflexivity.
Qed.

(** X13. When [faces.json] cannot be parsed, a registration or check-in
    that got as far as a detected face answers status 500 with the parse
    error and writes nothing, and [GET /api/faces] fails with that
    error. *)
Theorem unparsable_store_is_server_error now nm image detected e d :
  truthy nm = true -> truthy image = true ->
  extract image = Return (Some detected) ->
  faces_json d = Unparsable e ->
  register now {| req_name := Some nm; req_image := Some image |} d
  = (json_error "Server error during registration" e, d)
  /\ attendance now {| req_name := None; req_image := Some image |} d
     = (json_error "Server error during attendance check" e, d)
  /\ get_faces d = Throw e.
Proof.
  intros Hn Hi He Hd.
  assert (Hl : loadFaces d = Throw e) by (unfold loadFaces; rewrite Hd; reflexivity).
  split; [|split].
  - rewrite register_unfold by assumption.
    rewrite He, bind_Return, Hl. reflexivity.
  - rewrite attendance_unfold by assumption.
    rewrite He, bind_Return, Hl. reflexivity.
  - unfold get_faces. rewrite Hl. reflexivity.
Qed.

(** X14. The reply "Name and image are required" is given exactly when
    the name or the image is missing or empty, and "Image is required"
    by the check-in exactly when the image is. *)
Theorem required_fields now req d :
  (fst (register now req d) = name_and_image_required
   <-> missing (req_name req) || missing (req_image req) = true)
  /\ (fst (attendance now req d) = image_required
      <-> missing (req_image req) = true).
Proof.
  split.
  - unfold post_register, missing.
    destruct (req_name req) as [nm|]; [|split; reflexivity].
    destruct (req_image req) as [image|]; [|split; [rewrite orb_true_r|]; reflexivity].
    destruct (truthy nm); cbn [negb orb]; [|split; reflexivity].
    destruct (truthy image); cbn [negb]; [|split; reflexivity].
    split; [|discriminate].
    destruct (extract image) as [[detected|]|e]; rewrite ?bind_Return, ?bind_Throw;
      [|discriminate|discriminate].
    destruct (loadFaces d) as [faces|e]; rewrite ?bind_Return, ?bind_Throw; discriminate.
  - unfold post_attendance, missing.
    destruct (req_image req) as [image|]; [|split; reflexivity].
    destruct (truthy image); cbn [negb]; [|split; reflexivity].
    split; [|discriminate].
    destruct (extract image) as [[probe|]|e]; rewrite ?bind_Return, ?bind_Throw;
      [|discriminate|discriminate].
    destruct (loadFaces d) as [faces|e]; rewrite ?bind_Return, ?bind_Throw; [|discriminate].
    destruct (Nat.eqb (length faces) 0); [discriminate|].
    destruct (bestOf probe faces) as [[best|] bd]; [|discriminate].
    destruct (lt bd THRESHOLD); [|discriminate].
    destruct (loadAttendance d); rewrite ?bind_Return, ?bind_Throw; discriminate.
Qed.
End Refusals.

(** ** Worked examples *)

Section Examples.
Local Open Scope string_scope.

Lemma refused_request_writes_nothing_witness :
  snd (Studio.register "2024-05-01T08:00:00.000Z" (Studio.with_name "" "centre") Studio.two_faces)
  = Studio.two_faces.
Proof.
  apply (proj1 (refused_request_writes_nothing string Studio.load Studio.detect
                  "2024-05-01T08:00:00.000Z" (Studio.with_name "" "centre") Studio.two_faces)).
  left. reflexivity.
Defined.

Lemma attendance_confidence_percent_witness :
  let now := "2024-05-01T08:00:00.000Z" in
  let result := Studio.attendance now (Studio.with_image "near-origin") Studio.two_faces in
  (exists z, of_Z 90 = of_Z z /\ (40 <= z <= 100)%Z)
  /\ le (of_Z 40) (of_Z 90) = true
  /\ le (of_Z 90) (of_Z 100) = true
  /\ exists attendanceLog,
       loadAttendance Studio.two_faces = Return attendanceLog
       /\ snd result
          = saveAttendance
              (attendanceLog ++
               [{| att_name := "A"; timestamp := now; confidence := of_Z 90 |}])%list
              Studio.two_faces.
Proof.
  apply (attendance_confidence_percent string Studio.load Studio.detect
           "2024-05-01T08:00:00.000Z" (Studio.with_image "near-origin") Studio.two_faces).
  vm_compute. reflexivity.
Defined.

Lemma appended_confidence_at_least_40_witness :
  let now := "2024-05-01T08:00:00.000Z" in
  let ev := {| att_name := "A"; timestamp := now; confidence := of_Z 90 |} in
  exists image probe faces best bestDistance,
    req_image (Studio.with_image "near-origin") = Some image
    /\ extractFaceDescriptor string Studio.load Studio.detect image = Return (Some probe)
    /\ loadFaces Studio.two_faces = Return faces
    /\ bestOf probe faces = (Some best, bestDistance)
    /\ lt bestDistance THRESHOLD = true
    /\ confidence ev = Math_round (mul (sub (of_Z 1) bestDistance) (of_Z 100))
    /\ le (of_Z 40) (confidence ev) = true
    /\ lt (confidence ev) zero = false.
Proof.
  apply (appended_confidence_at_least_40 string Studio.load Studio.detect
           "2024-05-01T08:00:00.000Z" (Studio.with_image "near-origin") Studio.two_faces []).
  - reflexivity.
  - vm_compute. reflexivity.
Defined.

Lemma register_all_keeps_unique_names_witness :
  exists faces',
    loadFaces
      (register_all string Studio.load Studio.detect
         [("2024-05-01T08:00:00.000Z", Studio.with_name "Bob" "origin-1d");
          ("2024-05-01T08:05:00.000Z", Studio.with_name "bob" "centre")]
         Studio.no_files)
    = Return faces'
    /\ unique_names faces'.
Proof.
  apply (register_all_keeps_unique_names string Studio.load Studio.detect _ Studio.no_files []).
  - reflexivity.
  - apply NoDup_nil. exact I.
  - repeat constructor; cbn; intros nm Hnm; injection Hnm as <-; reflexivity.
Defined.

Lemma register_success_witness :
  let now := "2024-05-01T08:00:00.000Z" in
  let req := Studio.with_name " Ann " "origin-1d" in
  let d := Studio.two_faces in
  exists nm faces faces',
    req_name req = Some nm
    /\ loadFaces d = Return faces
    /\ loadFaces (snd (Studio.register now req d)) = Return faces'
    /\ length faces <= length faces' <= S (length faces)
    /\ (exists i detected,
          faces' !! i
          = Some {| name := trim nm; descriptor := detected; registeredAt := now |})
    /\ fst (Studio.register now req d) = registered_reply nm (length faces')
    /\ exists listed,
         get_faces (snd (Studio.register now req d))
         = Return (json_ok [("success", JBool true);
                            ("count", JNum (of_nat (length faces')));
                            ("faces", JArr listed)])
         /\ length listed = length faces'.
Proof.
  apply (register_success string Studio.load Studio.detect).
  vm_compute. reflexivity.
Defined.

Lemma attendance_log_grows_at_the_end_witness :
  let now := "2024-05-01T08:00:00.000Z" in
  let req := Studio.with_image "near-origin" in
  let d := Studio.two_faces in
  exists extra,
    length extra <= 1
    /\ get_attendance (snd (Studio.attendance now req d))
       = Return (json_ok [("success", JBool true);
                          ("count", JNum (of_nat (length (@nil AttendanceRecord) + length extra)));
                          ("records",
                           JArr ((attendance_json_of <$> [])
                                 ++ (attendance_json_of <$> extra))%list)])
    /\ forall ev, ev ∈ extra ->
         timestamp ev = now
         /\ exists faces f,
              loadFaces d = Return faces /\ f ∈ faces /\ att_name ev = name f.
Proof.
  apply (attendance_log_grows_at_the_end string Studio.load Studio.detect).
  reflexivity.
Defined.

Lemma checkin_after_register_witness :
  let now1 := "2024-05-01T08:00:00.000Z" in
  let now2 := "2024-05-02T08:00:00.000Z" in
  let d1 := snd (Studio.register now1 (Studio.with_name "Carol" "centre") Studio.two_faces) in
  exists best faces1,
    loadFaces d1 = Return faces1
    /\ best ∈ faces1
    /\ (exists b, distance_to [of_Z 5; of_Z 5] best = S754_zero b)
    /\ Studio.attendance now2 (Studio.with_image "centre") d1
       = (recognized (name best) (of_Z 100) now2,
          saveAttendance
            ([] ++
             [{| att_name := name best; timestamp := now2; confidence := of_Z 100 |}])%list d1)
    /\ ((forall f, f ∈ [Studio.A; Studio.B] -> lt zero (distance_to [of_Z 5; of_Z 5] f) = true) ->
        name best = trim "Carol").
Proof.
  apply (checkin_after_register string Studio.load Studio.detect
           "2024-05-01T08:00:00.000Z" "2024-05-02T08:00:00.000Z" "Carol" "centre"
           Studio.two_faces [Studio.A; Studio.B] [of_Z 5; of_Z 5] []);
    try reflexivity.
  repeat constructor; vm_compute; reflexivity.
Defined.

Lemma detector_failure_is_no_face_witness :
  post_register string Studio.load (fun _ => DetectorError)
    "2024-05-01T08:00:00.000Z" (Studio.with_name "Ann" "centre") Studio.two_faces
  = (no_face_detected_register, Studio.two_faces)
  /\ post_attendance string Studio.load (fun _ => DetectorError)
       "2024-05-01T08:00:00.000Z" (Studio.with_image "centre") Studio.two_faces
     = (no_face_detected_attendance, Studio.two_faces)
  /\ post_extract_descriptor string Studio.load (fun _ => DetectorError)
       (Studio.with_image "centre")
     = no_face_detected_register.
Proof.
  apply (detector_failure_is_no_face string Studio.load (fun _ => DetectorError)
           "2024-05-01T08:00:00.000Z" "Ann" "centre" "centre"); reflexivity.
Defined.

Lemma unreadable_image_is_server_error_witness :
  post_register string (fun _ => inl "Unsupported image type") Studio.detect
    "2024-05-01T08:00:00.000Z" (Studio.with_name "Ann" "centre") Studio.two_faces
  = (json_error "Server error during registration" "Unsupported image type", Studio.two_faces)
  /\ post_attendance string (fun _ => inl "Unsupported image type") Studio.detect
       "2024-05-01T08:00:00.000Z" (Studio.with_image "centre") Studio.two_faces
     = (json_error "Server error during attendance check" "Unsupported image type",
        Studio.two_faces)
  /\ post_extract_descriptor string (fun _ => inl "Unsupported image type") Studio.detect
       (Studio.with_image "centre")
     = json_error "Server error during face extraction" "Unsupported image type".
Proof.
  apply (unreadable_image_is_server_error string
           (fun _ => inl "Unsupported image type") Studio.detect
           "2024-05-01T08:00:00.000Z" "Ann" "centre"); reflexivity.
Defined.

Lemma extract_ignores_data_url_header_witness :
  extractFaceDescriptor string Studio.load Studio.detect "data:image/jpeg;base64,centre"
  = extractFaceDescriptor string Studio.load Studio.detect "centre".
Proof.
  apply (extract_ignores_data_url_header string Studio.load Studio.detect "jpeg" "centre");
    reflexivity.
Defined.

Lemma unparsable_store_is_server_error_witness :
  let d := {| faces_json := Unparsable "Unexpected end of JSON input";
              attendance_json := Absent |} in
  Studio.register "2024-05-01T08:00:00.000Z" (Studio.with_name "Ann" "centre") d
  = (json_error "Server error during registration" "Unexpected end of JSON input", d)
  /\ Studio.attendance "2024-05-01T08:00:00.000Z" (Studio.with_image "centre") d
     = (json_error "Server error during attendance check" "Unexpected end of JSON input", d)
  /\ get_faces d = Throw "Unexpected end of JSON input".
Proof.
  apply (unparsable_store_is_server_error string Studio.load Studio.detect
           "2024-05-01T08:00:00.000Z" "Ann" "centre" [of_Z 5; of_Z 5]); reflexivity.
Defined.

End Examples.
